(** * Panda3D: the Win32 thread implementation and the Transform2SG data node

    A shallow embedding of [panda/src/pipeline/threadWin32Impl.cxx] and
    [panda/src/tform/transform2sg.cxx], with the properties of the
    thread lifecycle, the current-thread registry and the transform
    plumbing proved over it.

    The thread code is written in a small monad [M]: every primitive the
    C++ touches (the mutex, the condition variable, the [_status] field,
    the reference count of the parent [Thread], the OS calls) is one
    action that changes the [World] and records an [Event].  A run is
    made by one native thread ([me]); what the other threads do is an
    explicit input at the two places where the code lets them in (the
    sleep inside [_cv.wait()] and the user's [thread_main]).

    Left out, as they change nothing the properties speak of: the debug
    output through [thread_cat] and the [TAU_REGISTER_THREAD] profiling
    hook. *)

From Stdlib Require Import ZArith NArith List String Bool Lia.
From Stdlib Require Import DecimalString DecimalN.
From stdpp Require Import gmap.

Module Pipeline.

(** ** Data *)

(** [enum Status] of the thread implementation. *)
Inductive Status := S_new | S_start_called | S_running | S_finished.

(** [enum ThreadPriority]. *)
Inductive ThreadPriority := TP_low | TP_normal | TP_high | TP_urgent.

(** The Win32 priority levels handed to [SetThreadPriority]. *)
Inductive Win32Priority :=
| THREAD_PRIORITY_BELOW_NORMAL
| THREAD_PRIORITY_NORMAL
| THREAD_PRIORITY_ABOVE_NORMAL
| THREAD_PRIORITY_HIGHEST.

(** A [Thread] object is known by its identity; a [Thread *] that may be
    [nullptr] is an [option Thread].  Native (OS) threads are numbered. *)
Abbreviation Thread := nat (only parsing).
Abbreviation NativeThread := nat (only parsing).
Abbreviation HANDLE := N (only parsing).
Abbreviation DWORD := N (only parsing).

(** The fields of a [ThreadWin32Impl].  [_mutex] holds the native thread
    that owns the lock, if any. *)
Record ThreadWin32Impl := mkImpl {
  _mutex : option NativeThread;
  _parent_obj : Thread;
  _thread : HANDLE;
  _thread_id : DWORD;
  _joinable : bool;
  _status : Status
}.

(** Everything the code can reach: the implementation object, the
    reference count of its parent [Thread] (and whether [unref_delete]
    has destroyed it), the [thread_local] slot [_current_thread] of each
    native thread (absent = [nullptr]), and the process-wide flag. *)
Record World := mkWorld {
  this : ThreadWin32Impl;
  ref_count : Z;
  deleted : bool;
  _current_thread : gmap nat nat;
  _main_thread_known : bool
}.

(** What [Notify::assert_failure] does when an assertion fails. *)
Inductive AssertPolicy := AssertFatal | AssertDegrade.

(** The answer of the OS to [CreateThread]: the handle it returns and
    the identifier it stores through [lpThreadId], if it stores one. *)
Record CreateThreadResult := mkCreate {
  created_handle : HANDLE;
  stored_id : option DWORD
}.

(** The surroundings of one call: the native thread that makes it, the
    process it runs in, the designated main [Thread], the assertion
    policy and the OS's answer to a [CreateThread] request. *)
Record Ctx := mkCtx {
  me : NativeThread;
  process_id : DWORD;
  main_thread : Thread;
  assert_policy : AssertPolicy;
  os_create : CreateThreadResult
}.

(** The observable actions, in program order. *)
Inductive Event :=
| EvLock
| EvUnlock
| EvReadStatus (s : Status)
| EvWriteStatus (old new : Status)
| EvWait
| EvNotify
| EvRef (t : Thread)
| EvUnrefDelete (t : Thread)
| EvCloseHandle (h : HANDLE)
| EvCreateThread
| EvSetThreadPriority (h : HANDLE) (p : Win32Priority)
| EvThreadMain (t : Thread)
| EvBindSlot (n : NativeThread) (t : option Thread)
| EvTestAndSet (was : bool)
| EvAssertFailure.

(** ** The monad *)

(** A call returns a value, dies in a fatal assertion, or is left
    waiting (for the mutex, or inside [_cv.wait()]). *)
Inductive Outcome (A : Type) :=
| Returned (a : A)
| Aborted
| Blocked.
Arguments Returned {A} a.
Arguments Aborted {A}.
Arguments Blocked {A}.

Record Run (A : Type) := mkRun {
  events : list Event;
  final : World;
  outcome : Outcome A
}.
Arguments mkRun {A} _ _ _.
Arguments events {A} _.
Arguments final {A} _.
Arguments outcome {A} _.

Definition M (A : Type) : Type := Ctx -> World -> Run A.

Definition ret {A} (a : A) : M A :=
  fun _ w => mkRun [] w (Returned a).

Definition bind {A B} (m : M A) (f : A -> M B) : M B :=
  fun c w =>
    let r := m c w in
    match outcome r with
    | Returned a =>
        let r' := f a c (final r) in
        mkRun (events r ++ events r') (final r') (outcome r')
    | Aborted => mkRun (events r) (final r) Aborted
    | Blocked => mkRun (events r) (final r) Blocked
    end.

Declare Scope prog_scope.
Delimit Scope prog_scope with prog.
Notation "x ← y ; z" := (bind y (fun x => z))
  (at level 20, y at level 100, z at level 200, only parsing) : prog_scope.
Notation "x ;; z" := (bind x (fun _ => z))
  (at level 100, z at level 200, only parsing, right associativity) : prog_scope.
Local Open Scope prog_scope.

Definition emit (e : Event) : M unit :=
  fun _ w => mkRun [e] w (Returned tt).

Definition read {A} (f : World -> A) : M A :=
  fun _ w => mkRun [] w (Returned (f w)).

Definition modify (f : World -> World) : M unit :=
  fun _ w => mkRun [] (f w) (Returned tt).

Definition ask {A} (f : Ctx -> A) : M A :=
  fun c w => mkRun [] w (Returned (f c)).

Definition abort {A} : M A := fun _ w => mkRun [] w Aborted.
Definition block {A} : M A := fun _ w => mkRun [] w Blocked.
Definition skip : M unit := ret tt.

(** ** Field updates *)

Definition with_mutex (o : option NativeThread) (i : ThreadWin32Impl) :=
  mkImpl o (_parent_obj i) (_thread i) (_thread_id i) (_joinable i) (_status i).
Definition with_thread (h : HANDLE) (i : ThreadWin32Impl) :=
  mkImpl (_mutex i) (_parent_obj i) h (_thread_id i) (_joinable i) (_status i).
Definition with_thread_id (d : DWORD) (i : ThreadWin32Impl) :=
  mkImpl (_mutex i) (_parent_obj i) (_thread i) d (_joinable i) (_status i).
Definition with_joinable (b : bool) (i : ThreadWin32Impl) :=
  mkImpl (_mutex i) (_parent_obj i) (_thread i) (_thread_id i) b (_status i).
Definition with_status (s : Status) (i : ThreadWin32Impl) :=
  mkImpl (_mutex i) (_parent_obj i) (_thread i) (_thread_id i) (_joinable i) s.

Definition on_this (f : ThreadWin32Impl -> ThreadWin32Impl) (w : World) :=
  mkWorld (f (this w)) (ref_count w) (deleted w) (_current_thread w)
          (_main_thread_known w).
Definition with_ref_count (n : Z) (w : World) :=
  mkWorld (this w) n (deleted w) (_current_thread w) (_main_thread_known w).
Definition with_deleted (b : bool) (w : World) :=
  mkWorld (this w) (ref_count w) b (_current_thread w) (_main_thread_known w).
Definition with_slots (m : gmap nat nat) (w : World) :=
  mkWorld (this w) (ref_count w) (deleted w) m (_main_thread_known w).
Definition with_main_thread_known (b : bool) (w : World) :=
  mkWorld (this w) (ref_count w) (deleted w) (_current_thread w) b.

Definition Status_eqb (a b : Status) : bool :=
  match a, b with
  | S_new, S_new | S_start_called, S_start_called
  | S_running, S_running | S_finished, S_finished => true
  | _, _ => false
  end.

(** ** Primitives *)

(** [_mutex.lock()]: taken when free; a caller that finds it held is
    left waiting. *)
Definition mutex_lock : M unit :=
  holder ← read (fun w => _mutex (this w));
  match holder with
  | None =>
      n ← ask me;
      emit EvLock;;
      modify (on_this (with_mutex (Some n)))
  | Some _ => block
  end.

(** [_mutex.unlock()]. *)
Definition mutex_unlock : M unit :=
  emit EvUnlock;;
  modify (on_this (with_mutex None)).

(** A read of [_status]. *)
Definition read_status : M Status :=
  s ← read (fun w => _status (this w));
  emit (EvReadStatus s);;
  ret s.

(** [_status = s]. *)
Definition write_status (s : Status) : M unit :=
  old ← read (fun w => _status (this w));
  emit (EvWriteStatus old s);;
  modify (on_this (with_status s)).

(** [_cv.notify()]. *)
Definition cv_notify : M unit := emit EvNotify.

(** [_cv.wait()]: the caller gives up the mutex and sleeps; [wake] is
    what the rest of the program does to the world until the caller is
    woken ([None]: it never is).  The caller owns the mutex again when
    the call returns, so it stays asleep while somebody else holds it. *)
Definition cv_wait (wake : option (World -> World)) : M unit :=
  emit EvWait;;
  modify (on_this (with_mutex None));;
  match wake with
  | None => block
  | Some others =>
      modify others;;
      holder ← read (fun w => _mutex (this w));
      match holder with
      | None => n ← ask me; modify (on_this (with_mutex (Some n)))
      | Some _ => block
      end
  end.

(** Modelled from the spec: the [nassertd] and [nassertr] macros (of
    pnotify.h, which is not part of the sources at hand).  A failed
    precondition is "reported via a fatal-in-debug assertion; in
    non-debug builds, the guarded operation degrades to a
    no-op/early-return".  [nassertd cond] answers whether the block that
    follows the macro is entered. *)
Definition assert_failure : M bool :=
  emit EvAssertFailure;;
  p ← ask assert_policy;
  match p with
  | AssertFatal => abort
  | AssertDegrade => ret true
  end.

Definition nassertd (condition : bool) : M bool :=
  if condition then ret false else assert_failure.

Definition nassertr {A} (condition : bool) (return_value : A) (rest : M A) : M A :=
  failed ← nassertd condition;
  if failed then ret return_value else rest.

(** The destructor: [CloseHandle(_thread)]. *)
Definition destructor : M unit :=
  h ← read (fun w => _thread (this w));
  emit (EvCloseHandle h).

(** Modelled from the spec: the reference count of the parent [Thread]
    (referenceCount.h is not part of the sources at hand):
    "[ref()] / [unref()]-style reference-count adjustment with automatic
    destruction at zero".  Destroying the [Thread] destroys the
    [ThreadWin32Impl] it owns. *)
Definition ref_parent : M unit :=
  p ← read (fun w => _parent_obj (this w));
  emit (EvRef p);;
  modify (fun w => with_ref_count (ref_count w + 1) w).

Definition unref_delete_parent : M unit :=
  p ← read (fun w => _parent_obj (this w));
  emit (EvUnrefDelete p);;
  modify (fun w => with_ref_count (ref_count w - 1) w);;
  n ← read ref_count;
  if (n =? 0)%Z then destructor;; modify (with_deleted true) else skip.

(** [CreateThread(nullptr, 0, &root_func, this, 0, &_thread_id)]: the
    handle comes back as the result, the identifier through the last
    argument. *)
Definition CreateThread : M HANDLE :=
  r ← ask os_create;
  emit EvCreateThread;;
  match stored_id r with
  | Some d => modify (on_this (with_thread_id d))
  | None => skip
  end;;
  ret (created_handle r).

(** [SetThreadPriority]: a best-effort hint, its result is not looked at. *)
Definition SetThreadPriority (h : HANDLE) (p : Win32Priority) : M unit :=
  emit (EvSetThreadPriority h p).

(** ** threadWin32Impl.cxx *)

(** [ThreadWin32Impl::setup_main_thread]. *)
Definition setup_main_thread : M unit :=
  write_status S_running.

(** [ThreadWin32Impl::start]. *)
Definition start (priority : ThreadPriority) (joinable : bool) : M bool :=
  mutex_lock;;
  st ← read_status;
  th ← read (fun w => _thread (this w));
  failed ← nassertd (Status_eqb st S_new && (th =? 0)%N);
  if failed then
    mutex_unlock;;
    ret false
  else
    modify (on_this (with_joinable joinable));;
    write_status S_start_called;;
    ref_parent;;
    h ← CreateThread;
    modify (on_this (with_thread h));;
    id ← read (fun w => _thread_id (this w));
    if (id =? 0)%N then
      unref_delete_parent;;
      mutex_unlock;;
      ret false
    else
      h ← read (fun w => _thread (this w));
      match priority with
      | TP_low => SetThreadPriority h THREAD_PRIORITY_BELOW_NORMAL
      | TP_high => SetThreadPriority h THREAD_PRIORITY_ABOVE_NORMAL
      | TP_urgent => SetThreadPriority h THREAD_PRIORITY_HIGHEST
      | TP_normal => SetThreadPriority h THREAD_PRIORITY_NORMAL
      end;;
      mutex_unlock;;
      ret true.

(** [ThreadWin32Impl::join].  [others] says what the rest of the program
    does during each sleep of the caller inside [_cv.wait()], one entry
    per wake-up; when the entries are used up the caller is never woken
    again. *)
Fixpoint join_loop (others : list (World -> World)) : M unit :=
  st ← read_status;
  if negb (Status_eqb st S_finished) then
    match others with
    | [] => cv_wait None
    | o :: rest => cv_wait (Some o);; join_loop rest
    end
  else skip.

Definition join (others : list (World -> World)) : M unit :=
  mutex_lock;;
  j ← read (fun w => _joinable (this w));
  ok ← (if j then st ← read_status; ret (negb (Status_eqb st S_new))
        else ret false);
  failed ← nassertd ok;
  if failed then
    mutex_unlock;;
    ret tt
  else
    join_loop others;;
    mutex_unlock.

(** [operator <<] on a [DWORD]: its decimal digits. *)
Definition decimal (n : DWORD) : string :=
  NilEmpty.string_of_uint (N.to_uint n).

(** [GetCurrentProcessId()]. *)
Definition GetCurrentProcessId : M DWORD := ask process_id.

(** [ThreadWin32Impl::get_unique_id]. *)
Definition get_unique_id : M string :=
  pid ← GetCurrentProcessId;
  tid ← read (fun w => _thread_id (this w));
  ret (decimal pid ++ "." ++ decimal tid)%string.

(** The [thread_local] variable [_current_thread] of the calling
    native thread. *)
Definition read_current_thread : M (option Thread) :=
  n ← ask me;
  read (fun w => _current_thread w !! n).

Definition write_current_thread (t : option Thread) : M unit :=
  n ← ask me;
  emit (EvBindSlot n t);;
  modify (fun w =>
    with_slots (match t with
                | Some x => <[n:=x]> (_current_thread w)
                | None => delete n (_current_thread w)
                end) w).

(** [_main_thread_known.test_and_set(...)]: sets the flag and answers
    what it was. *)
Definition test_and_set : M bool :=
  was ← read _main_thread_known;
  emit (EvTestAndSet was);;
  modify (with_main_thread_known true);;
  ret was.

(** Modelled from the spec: [Thread::get_main_thread()] (thread.h is not
    part of the sources at hand), "a [get_main_thread()] accessor
    returning the singleton designated main identity". *)
Definition get_main_thread : M Thread := ask main_thread.

(** [init_current_thread]. *)
Definition init_current_thread : M (option Thread) :=
  thread ← read_current_thread;
  was ← test_and_set;
  thread ← (if negb was then
              m ← get_main_thread;
              write_current_thread (Some m);;
              ret (Some m)
            else ret thread);
  nassertr (bool_decide (thread ≠ None)) None (ret thread).

(** [ThreadWin32Impl::get_current_thread]. *)
Definition get_current_thread : M (option Thread) :=
  thread ← read_current_thread;
  match thread with
  | Some _ => ret thread
  | None => init_current_thread
  end.

(** [ThreadWin32Impl::bind_thread]. *)
Definition bind_thread (thread : option Thread) : M unit :=
  cur ← read_current_thread;
  both ← (match cur with
          | None => m ← get_main_thread; ret (bool_decide (thread = Some m))
          | Some _ => ret false
          end);
  (if both then test_and_set;; skip else skip);;
  write_current_thread thread.

(** [_parent_obj->thread_main()]: the user's work, which may do anything
    to the world. *)
Definition call_thread_main (thread_main : World -> World) : M unit :=
  p ← read (fun w => _parent_obj (this w));
  emit (EvThreadMain p);;
  modify thread_main.

(** [ThreadWin32Impl::root_func], with [data] pointing at [this]. *)
Definition root_func (thread_main : World -> World) : M DWORD :=
  p ← read (fun w => _parent_obj (this w));
  write_current_thread (Some p);;
  mutex_lock;;
  st ← read_status;
  failed ← nassertd (Status_eqb st S_start_called);
  if failed then
    mutex_unlock;;
    ret 1%N
  else
    write_status S_running;;
    cv_notify;;
    mutex_unlock;;
    call_thread_main thread_main;;
    mutex_lock;;
    st ← read_status;
    failed ← nassertd (Status_eqb st S_running);
    if failed then
      mutex_unlock;;
      ret 1%N
    else
      write_status S_finished;;
      cv_notify;;
      mutex_unlock;;
      unref_delete_parent;;
      ret 0%N.

(** ** What the properties are stated with *)

(** The place of a state in the sequence New, StartCalled, Running,
    Finished. *)
Definition rank (s : Status) : nat :=
  match s with
  | S_new => 0
  | S_start_called => 1
  | S_running => 2
  | S_finished => 3
  end.

(** A write of [_status] that goes forward: not to an earlier state, and
    not from New past StartCalled. *)
Definition forward_write (old new : Status) : bool :=
  (rank old <=? rank new) &&
  negb (Status_eqb old S_new && (Status_eqb new S_running || Status_eqb new S_finished)).

Definition forward_event (e : Event) : bool :=
  match e with
  | EvWriteStatus old new => forward_write old new
  | _ => true
  end.

Definition forward_only (evs : list Event) : bool := forallb forward_event evs.

(** Every access to [_status] in a trace lies between a [lock()] and the
    [unlock()] that follows it; [held] says whether the caller owns the
    mutex at the start of the trace.  A caller that sleeps in
    [_cv.wait()] owns the mutex again when it goes on. *)
Fixpoint guarded (held : bool) (evs : list Event) : bool :=
  match evs with
  | [] => true
  | EvLock :: rest => guarded true rest
  | EvUnlock :: rest => guarded false rest
  | EvReadStatus _ :: rest => held && guarded held rest
  | EvWriteStatus _ _ :: rest => held && guarded held rest
  | _ :: rest => guarded held rest
  end.

Definition lock_discipline (evs : list Event) : bool := guarded false evs.

(** The operations on the lifecycle state, with their arguments, and
    what a call of one of them does as seen from outside. *)
Inductive Operation :=
| OpStart (priority : ThreadPriority) (joinable : bool)
| OpSetupMainThread
| OpJoin (others : list (World -> World))
| OpRootFunc (thread_main : World -> World).

Definition trace (op : Operation) (c : Ctx) (w : World) : list Event :=
  match op with
  | OpStart priority joinable => events (start priority joinable c w)
  | OpSetupMainThread => events (setup_main_thread c w)
  | OpJoin others => events (join others c w)
  | OpRootFunc thread_main => events (root_func thread_main c w)
  end.

Definition after (op : Operation) (c : Ctx) (w : World) : World :=
  match op with
  | OpStart priority joinable => final (start priority joinable c w)
  | OpSetupMainThread => final (setup_main_thread c w)
  | OpJoin others => final (join others c w)
  | OpRootFunc thread_main => final (root_func thread_main c w)
  end.

(** The number of times the caller went to sleep in [_cv.wait()]. *)
Fixpoint waits (evs : list Event) : nat :=
  match evs with
  | [] => 0
  | EvWait :: rest => S (waits rest)
  | _ :: rest => waits rest
  end.

(** The value of [_thread_id] once [CreateThread] has come back. *)
Definition thread_id_after (r : CreateThreadResult) (before : DWORD) : DWORD :=
  match stored_id r with
  | Some d => d
  | None => before
  end.

(** The world a sleeper in [_cv.wait()] finds when [o] has run: it gave
    up the mutex before [o]. *)
Definition woken (o : World -> World) (w : World) : World :=
  o (on_this (with_mutex None) w).

(** What a caller that owns the mutex and sleeps in [_cv.wait()] until
    it is let out finds at its [k]-th look at the state after [w]: each
    sleep gives the mutex up, lets the next of [others] run and takes
    the mutex again; there is no such look when [others] has run out or
    the mutex is not free at the wake-up. *)
Fixpoint look (c : Ctx) (others : list (World -> World)) (k : nat) (w : World)
    {struct k} : option World :=
  match k with
  | 0 => Some w
  | S k' =>
      match others with
      | [] => None
      | o :: rest =>
          match _mutex (this (woken o w)) with
          | None => look c rest k' (on_this (with_mutex (Some (me c))) (woken o w))
          | Some _ => None
          end
      end
  end.

(** The world in which [root_func], called in state StartCalled, hands
    over to the user's [thread_main]: the slot of the new native thread
    holds the parent, the state is Running. *)
Definition handed_to_user (c : Ctx) (w : World) : World :=
  on_this (with_status S_running)
    (with_slots (<[me c := _parent_obj (this w)]> (_current_thread w)) w).

(** The slot of the calling native thread. *)
Definition my_slot (c : Ctx) (w : World) : option Thread :=
  _current_thread w !! me c.

(** ** What the further properties are stated with *)

(** The level that [start] hands to [SetThreadPriority], by the
    [switch] on the priority. *)
Definition win32_priority (priority : ThreadPriority) : Win32Priority :=
  match priority with
  | TP_low => THREAD_PRIORITY_BELOW_NORMAL
  | TP_high => THREAD_PRIORITY_ABOVE_NORMAL
  | TP_urgent => THREAD_PRIORITY_HIGHEST
  | TP_normal => THREAD_PRIORITY_NORMAL
  end.

(** Whether a call came back to its caller. *)
Definition returned {A} (r : Run A) : bool :=
  match outcome r with
  | Returned _ => true
  | _ => false
  end.

Definition returns (op : Operation) (c : Ctx) (w : World) : bool :=
  match op with
  | OpStart priority joinable => returned (start priority joinable c w)
  | OpSetupMainThread => returned (setup_main_thread c w)
  | OpJoin others => returned (join others c w)
  | OpRootFunc thread_main => returned (root_func thread_main c w)
  end.

(** The events that only look at the lifecycle: the mutex, reads of the
    state, the sleep, a failed assertion. *)
Definition looks_only (e : Event) : bool :=
  match e with
  | EvLock | EvUnlock | EvReadStatus _ | EvWait | EvAssertFailure => true
  | _ => false
  end.

(** Whether a string is free of dots. *)
Fixpoint no_dot (s : string) : bool :=
  match s with
  | EmptyString => true
  | String ch rest =>
      negb (String.eqb (String ch EmptyString) ".") && no_dot rest
  end.

(** What the new native thread [c] does to the world when it runs
    [root_func] from its first to its last statement. *)
Definition launcher (thread_main : World -> World) (c : Ctx) : World -> World :=
  fun w => final (root_func thread_main c w).

(** ** Worlds to run the code on *)

(** The object as its constructor leaves it, for a parent held once. *)
Definition fresh_impl (parent : Thread) : ThreadWin32Impl :=
  mkImpl None parent 0%N 0%N false S_new.

Definition fresh_world (parent : Thread) : World :=
  mkWorld (fresh_impl parent) 1 false ∅ false.

Definition ctx0 (n : NativeThread) (p : AssertPolicy) (r : CreateThreadResult) : Ctx :=
  mkCtx n 4242%N 0 p r.

Definition os_ok : CreateThreadResult := mkCreate 700%N (Some 1234%N).
Definition os_fail : CreateThreadResult := mkCreate 0%N None.

(** A New object whose [_thread_id] holds an old value. *)
Definition stale_world (parent : Thread) : World :=
  mkWorld (mkImpl None parent 0%N 99%N false S_new) 1 false ∅ false.

(** Native thread 1 starts the thread of parent 7, joinable. *)
Definition starter : Ctx := ctx0 1 AssertDegrade os_ok.
Definition started_world : World :=
  final (start TP_normal true starter (fresh_world 7)).

(** The new native thread, number 2, that runs [root_func]. *)
Definition worker : Ctx := ctx0 2 AssertDegrade os_ok.

End Pipeline.

(** * transform2sg.cxx *)

Module Tform.

(** The fields of a [Transform2SG]: the name handed to the [DataNode]
    base, the index of the input, and the node to adjust ([None] is
    [NULL]). *)
Record Transform2SG := mkTransform2SG {
  _name : string;
  _transform_input : Z;
  _node : option nat
}.

(** The classes the file only uses, taken as they come: the traverser
    with its current thread, the bundle of inputs with [has_data] and
    [get_data(i).get_ptr()] ([None] is [NULL]), the [DCAST] of such a
    pointer to a [TransformState] ([None] when it is not one, in which
    case [DCAST_INTO_V] leaves the function), and [define_input] with
    the type handle of [TransformState]. *)
Class Collaborators := {
  DataGraphTraverser : Type;
  DataNodeTransmit : Type;
  TypedObject : Type;
  TransformState : Type;
  TypeHandle : Type;
  get_current_thread : DataGraphTraverser -> nat;
  has_data : DataNodeTransmit -> Z -> bool;
  get_data_ptr : DataNodeTransmit -> Z -> option TypedObject;
  DCAST : TypedObject -> option TransformState;
  define_input : string -> TypeHandle -> Z;
  TransformState_class_type : TypeHandle
}.

(** What [do_transmit_data] does to the objects around it. *)
Inductive Effect `{Collaborators} :=
| SetTransform (node : nat) (transform : TransformState) (current_thread : nat)
| AssertionFailed.

Section Transform2SG.
Context `{Collaborators}.

(** The constructor. *)
Definition new_Transform2SG (name : string) : Transform2SG :=
  mkTransform2SG name
    (define_input "transform" TransformState_class_type)
    None.

(** [Transform2SG::set_node]. *)
Definition set_node (node : option nat) (this : Transform2SG) : Transform2SG :=
  mkTransform2SG (_name this) (_transform_input this) node.

(** [Transform2SG::get_node]. *)
Definition get_node (this : Transform2SG) : option nat := _node this.

(** [Transform2SG::do_transmit_data]: the object after the call and
    what the call did around it. *)
Definition do_transmit_data (this : Transform2SG)
    (trav : DataGraphTraverser) (input : DataNodeTransmit)
    : Transform2SG * list Effect :=
  let current_thread := get_current_thread trav in
  if has_data input (_transform_input this) then
    match get_data_ptr input (_transform_input this) ≫= DCAST with
    | None => (this, [AssertionFailed])
    | Some transform =>
        match _node this with
        | Some node => (this, [SetTransform node transform current_thread])
        | None => (this, [])
        end
    end
  else (this, []).

(** The calls a client can make, and a run of them on an object. *)
Inductive Method :=
| CallSetNode (node : option nat)
| CallTransmitData (trav : DataGraphTraverser) (input : DataNodeTransmit).

Definition call (this : Transform2SG) (m : Method) : Transform2SG :=
  match m with
  | CallSetNode node => set_node node this
  | CallTransmitData trav input => fst (do_transmit_data this trav input)
  end.

Definition calls (ms : list Method) (this : Transform2SG) : Transform2SG :=
  fold_left call ms this.

(** The node of the last [set_node] among [ms], [before] when there is
    none. *)
Fixpoint last_set_node (ms : list Method) (before : option nat) : option nat :=
  match ms with
  | [] => before
  | CallSetNode node :: rest => last_set_node rest node
  | CallTransmitData _ _ :: rest => last_set_node rest before
  end.

(** The transform that the input of index [i] carries, if it carries
    one. *)
Definition carried_transform (input : DataNodeTransmit) (i : Z)
    : option TransformState :=
  if has_data input i then get_data_ptr input i ≫= DCAST else None.
(** What a call does around the object, and what a run of calls does,
    in order. *)
Definition call_effects (this : Transform2SG) (m : Method) : list Effect :=
  match m with
  | CallSetNode _ => []
  | CallTransmitData trav input => snd (do_transmit_data this trav input)
  end.

Fixpoint script_effects (ms : list Method) (this : Transform2SG) : list Effect :=
  match ms with
  | [] => []
  | m :: rest => call_effects this m ++ script_effects rest (call this m)
  end.
End Transform2SG.

(** A small world to run the code on: a traverser is its current
    thread, a bundle of inputs is a list of pointers, and the objects
    are transforms ([Some t]) or something else. *)
Definition sample_collaborators : Collaborators := {|
  DataGraphTraverser := nat;
  DataNodeTransmit := list (option (option nat));
  TypedObject := option nat;
  TransformState := nat;
  TypeHandle := unit;
  get_current_thread := fun trav => trav;
  has_data := fun input i =>
    match input !! Z.to_nat i with
    | Some (Some _) => (0 <=? i)%Z
    | _ => false
    end;
  get_data_ptr := fun input i => mjoin (input !! Z.to_nat i);
  DCAST := fun object => object;
  define_input := fun _ _ => 0%Z;
  TransformState_class_type := tt
|}.

(** A run on it: two nodes set one after the other, a transform
    transmitted, the node taken away, another transform transmitted. *)
Definition sample_script : list (@Method sample_collaborators) :=
  [@CallSetNode sample_collaborators (Some 5);
   @CallSetNode sample_collaborators (Some 6);
   @CallTransmitData sample_collaborators 3 [Some (Some 42)];
   @CallSetNode sample_collaborators None;
   @CallTransmitData sample_collaborators 3 [Some (Some 43)]].

End Tform.

Import Pipeline.
Local Open Scope prog_scope.

(** * Properties *)

(** Unfolding of the monad and of the primitives, down to the record of
    the run. *)
Ltac run :=
  cbv [start join root_func setup_main_thread get_unique_id
       get_current_thread init_current_thread bind_thread
       mutex_lock mutex_unlock read_status write_status cv_notify cv_wait
       assert_failure nassertd nassertr destructor ref_parent
       unref_delete_parent CreateThread SetThreadPriority
       GetCurrentProcessId read_current_thread write_current_thread
       test_and_set get_main_thread call_thread_main
       bind ret emit read modify ask abort block skip
       events final outcome app
       on_this with_mutex with_thread with_thread_id with_joinable
       with_status with_ref_count with_deleted with_slots
       with_main_thread_known
       this ref_count deleted _current_thread _main_thread_known
       _mutex _parent_obj _thread _thread_id _joinable _status
       me process_id main_thread assert_policy os_create
       created_handle stored_id thread_id_after my_slot woken handed_to_user
       Status_eqb andb negb orb N.eqb].

Tactic Notation "run" "in" hyp(H) :=
  cbv [start join root_func setup_main_thread get_unique_id
       get_current_thread init_current_thread bind_thread
       mutex_lock mutex_unlock read_status write_status cv_notify cv_wait
       assert_failure nassertd nassertr destructor ref_parent
       unref_delete_parent CreateThread SetThreadPriority
       GetCurrentProcessId read_current_thread write_current_thread
       test_and_set get_main_thread call_thread_main
       bind ret emit read modify ask abort block skip
       events final outcome app
       on_this with_mutex with_thread with_thread_id with_joinable
       with_status with_ref_count with_deleted with_slots
       with_main_thread_known
       this ref_count deleted _current_thread _main_thread_known
       _mutex _parent_obj _thread _thread_id _joinable _status
       me process_id main_thread assert_policy os_create
       created_handle stored_id thread_id_after my_slot woken handed_to_user
       Status_eqb andb negb orb N.eqb] in H.

(** The tests on the reference count stay in the way of [run]; they are
    decided by cases. *)
Ltac break :=
  repeat match goal with
  | |- context [(?a =? ?b)%Z] => destruct (a =? b)%Z; run
  end.

Lemma Zround (n : Z) : (n + 1 - 1)%Z = n.
Proof. lia. Qed.

(** What [start] does where it sees a failed [CreateThread]: a [start]
    in state New, with no handle, after which [_thread_id] is 0:
    the reference taken on the parent is given back, so that the count
    is what it was; [start] returns false; the state stays StartCalled.
    Whatever the OS answers, the state after the call is StartCalled, so
    that the state does not tell a failed start from a good one. *)
Theorem start_create_failure (c : Ctx) (w : World)
    (priority : ThreadPriority) (joinable : bool) :
  _mutex (this w) = None ->
  _status (this w) = S_new ->
  _thread (this w) = 0%N ->
  thread_id_after (os_create c) (_thread_id (this w)) = 0%N ->
  let r := start priority joinable c w in
  outcome r = Returned false /\
  ref_count (final r) = ref_count w /\
  _status (this (final r)) = S_start_called /\
  (exists closing,
     events r = [EvLock; EvReadStatus S_new;
                 EvWriteStatus S_new S_start_called;
                 EvRef (_parent_obj (this w)); EvCreateThread;
                 EvUnrefDelete (_parent_obj (this w))] ++ closing ++ [EvUnlock]
     /\ closing = if (ref_count w =? 0)%Z
                  then [EvCloseHandle (created_handle (os_create c))] else []) /\
  (forall c', _status (this (final (start priority joinable c' w))) = S_start_called).
Proof.
  destruct w as [[mu p th tid j st] rc del slots flag].
  destruct c as [n pid mt pol [h sid]].
  cbn [this _mutex _status _thread _thread_id os_create thread_id_after
       stored_id _parent_obj ref_count created_handle].
  intros -> -> -> Hid.
  assert (Hrun : start priority joinable
                   (mkCtx n pid mt pol (mkCreate h sid))
                   (mkWorld (mkImpl None p 0%N tid j S_new) rc del slots flag)
                 = mkRun ([EvLock; EvReadStatus S_new;
                           EvWriteStatus S_new S_start_called;
                           EvRef p; EvCreateThread; EvUnrefDelete p] ++
                          (if (rc =? 0)%Z then [EvCloseHandle h] else []) ++
                          [EvUnlock])
                     (mkWorld (mkImpl None p h 0%N joinable S_start_called) rc
                        (if (rc =? 0)%Z then true else del) slots flag)
                     (Returned false)).
  { destruct sid as [d|]; cbn in Hid; subst; run; rewrite Zround;
      destruct (rc =? 0)%Z; reflexivity. }
  rewrite Hrun. cbn [outcome final events ref_count this _status].
  repeat split.
  - eexists; split; reflexivity.
  - intros [n' pid' mt' pol' [h' [[|d]|]]]; try destruct tid;
      run; break; try destruct priority; reflexivity.
Qed.
Lemma start_create_failure_witness :
  outcome (start TP_high true (ctx0 1 AssertFatal os_fail) (fresh_world 7))
    = Returned false /\
  ref_count (final (start TP_high true (ctx0 1 AssertFatal os_fail) (fresh_world 7)))
    = 1%Z.
Proof.
  pose proof (start_create_failure (ctx0 1 AssertFatal os_fail) (fresh_world 7)
                TP_high true eq_refl eq_refl eq_refl eq_refl) as H.
  split; [exact (proj1 H) | exact (proj1 (proj2 H))].
Defined.

(** C2.  Where [start] does not see the failure.  [start] tells a
    failed [CreateThread] by [_thread_id] being 0 after the call, not by
    the handle that comes back.  On a New object whose [_thread_id] is
    not 0, a [CreateThread] that fails (it returns no handle and stores
    no identifier) goes unnoticed: [start] returns true, keeps the
    reference it took on the parent, records the null handle and sets
    the priority on it; the state is StartCalled. *)
Theorem start_misses_failed_creation (c : Ctx) (w : World)
    (priority : ThreadPriority) (joinable : bool) :
  _mutex (this w) = None ->
  _status (this w) = S_new ->
  _thread (this w) = 0%N ->
  _thread_id (this w) <> 0%N ->
  created_handle (os_create c) = 0%N ->
  stored_id (os_create c) = None ->
  let r := start priority joinable c w in
  outcome r = Returned true /\
  ref_count (final r) = (ref_count w + 1)%Z /\
  _thread (this (final r)) = 0%N /\
  _status (this (final r)) = S_start_called /\
  (forall p, ~ In (EvUnrefDelete p) (events r)) /\
  In (EvSetThreadPriority 0%N (win32_priority priority)) (events r).
Proof.
  destruct w as [[mu p th [|tid] j st] rc del slots flag];
    destruct c as [n pid mt pol [h sid]];
    cbn [this _mutex _status _thread _thread_id os_create created_handle
         stored_id];
    intros -> -> -> Hid -> ->; [congruence|]; cbv zeta.
  destruct priority;
    (repeat split; try reflexivity;
     [ intros q Hin; cbn in Hin;
       repeat (destruct Hin as [Hin|Hin]; try discriminate Hin);
       contradiction
     | cbn; auto 10 ]).
Qed.

Lemma start_misses_failed_creation_witness :
  outcome (start TP_normal true (ctx0 1 AssertDegrade os_fail) (stale_world 7))
    = Returned true /\
  ref_count (final (start TP_normal true (ctx0 1 AssertDegrade os_fail)
                      (stale_world 7))) = 2%Z.
Proof.
  pose proof (start_misses_failed_creation (ctx0 1 AssertDegrade os_fail)
                (stale_world 7) TP_normal true eq_refl eq_refl eq_refl
                ltac:(discriminate) eq_refl eq_refl) as H.
  cbv zeta in H.
  exact (conj (proj1 H) (proj1 (proj2 H))).
Defined.

(** C3.  A [start] that finds the state not New, or a handle already
    there (a second [start], say), reports the failed assertion and
    leaves the state, the joinable flag, the handle and the reference
    count of the parent as they were; where a failed assertion is not
    fatal it returns false, and the whole world is as before the call. *)
Theorem start_precondition_violated (c : Ctx) (w : World)
    (priority : ThreadPriority) (joinable : bool) :
  _mutex (this w) = None ->
  _status (this w) <> S_new \/ _thread (this w) <> 0%N ->
  let r := start priority joinable c w in
  events r = [EvLock; EvReadStatus (_status (this w)); EvAssertFailure] ++
             match assert_policy c with
             | AssertDegrade => [EvUnlock]
             | AssertFatal => []
             end /\
  _status (this (final r)) = _status (this w) /\
  _joinable (this (final r)) = _joinable (this w) /\
  _thread (this (final r)) = _thread (this w) /\
  _thread_id (this (final r)) = _thread_id (this w) /\
  ref_count (final r) = ref_count w /\
  deleted (final r) = deleted w /\
  (assert_policy c = AssertDegrade ->
   outcome r = Returned false /\ final r = w).
Proof.
  destruct w as [[mu p th tid j st] rc del slots flag].
  destruct c as [n pid mt pol os].
  cbn [this _mutex _status _thread _thread_id _joinable ref_count deleted
       assert_policy].
  intros -> Hpre.
  assert (Hc : Status_eqb st S_new && (th =? 0)%N = false).
  { destruct Hpre as [H|H].
    - destruct st; try reflexivity. congruence.
    - apply andb_false_iff. right. now apply N.eqb_neq. }
  destruct st, th, pol; cbn in Hc; try discriminate Hc; run;
    (repeat split; [reflexivity || (intros; congruence) ..]).
Qed.

Lemma start_precondition_violated_witness :
  outcome (start TP_normal false starter started_world) = Returned false /\
  final (start TP_normal false starter started_world) = started_world.
Proof.
  refine (proj2 (proj2 (proj2 (proj2 (proj2 (proj2 (proj2
    (start_precondition_violated starter started_world
       TP_normal false eq_refl (or_introl _)))))))) eq_refl).
  vm_compute. discriminate.
Defined.

(** ** The loop of [join] *)

Section JoinLoop.
Variable c : Ctx.

Lemma join_loop_finished others w :
  _status (this w) = S_finished ->
  join_loop others c w = mkRun [EvReadStatus S_finished] w (Returned tt).
Proof.
  destruct w as [[mu p th tid j st] rc del slots flag]. cbn. intros ->.
  destruct others; reflexivity.
Qed.

Lemma join_loop_sleep o rest w :
  _status (this w) <> S_finished ->
  _mutex (this (woken o w)) = None ->
  let r := join_loop rest c (on_this (with_mutex (Some (me c))) (woken o w)) in
  join_loop (o :: rest) c w =
    mkRun (EvReadStatus (_status (this w)) :: EvWait :: events r)
          (final r) (outcome r).
Proof.
  destruct w as [[mu p th tid j st] rc del slots flag].
  intros Hs Hm r. subst r. run in Hs. run in Hm.
  cbn [join_loop].
  destruct st; try congruence; run;
    match goal with
    | |- context [o ?x] =>
        destruct (o x) as [[mu2 p2 th2 tid2 j2 st2] rc2 del2 sl2 fl2]
    end;
    subst mu2; run;
    match goal with
    | |- context [join_loop rest c ?x] =>
        destruct (join_loop rest c x) as [ev fw [a| |]]
    end; reflexivity.
Qed.

Lemma join_loop_stuck o rest w :
  _status (this w) <> S_finished ->
  _mutex (this (woken o w)) <> None ->
  join_loop (o :: rest) c w =
    mkRun [EvReadStatus (_status (this w)); EvWait] (woken o w) Blocked.
Proof.
  destruct w as [[mu p th tid j st] rc del slots flag].
  intros Hs Hm. run in Hs. run in Hm.
  cbn [join_loop].
  destruct st; try congruence; run;
    match goal with
    | |- context [o ?x] =>
        destruct (o x) as [[[m2|] p2 th2 tid2 j2 st2] rc2 del2 sl2 fl2]
    end; congruence || reflexivity.
Qed.

Lemma join_loop_never w :
  _status (this w) <> S_finished ->
  join_loop [] c w =
    mkRun [EvReadStatus (_status (this w)); EvWait]
          (on_this (with_mutex None) w) Blocked.
Proof.
  destruct w as [[mu p th tid j st] rc del slots flag].
  intros Hs. run in Hs. destruct st; try congruence; reflexivity.
Qed.

Lemma Status_finished_dec (s : Status) : {s = S_finished} + {s <> S_finished}.
Proof. destruct s; (now left) || (now right). Qed.

Lemma mutex_free_dec (w : World) :
  {_mutex (this w) = None} + {_mutex (this w) <> None}.
Proof. destruct (_mutex (this w)); (now left) || (now right). Qed.

(** The loop is left only on a read of Finished, which is then the
    state of the world. *)
Lemma join_loop_returns others : forall w,
  outcome (join_loop others c w) = Returned tt ->
  _status (this (final (join_loop others c w))) = S_finished /\
  exists evs, events (join_loop others c w) = evs ++ [EvReadStatus S_finished].
Proof.
  induction others as [|o rest IH]; intros w;
    destruct (Status_finished_dec (_status (this w))) as [Hf|Hf].
  - rewrite (join_loop_finished [] w Hf). intros _.
    split; [exact Hf | now exists []].
  - rewrite (join_loop_never w Hf). discriminate.
  - rewrite (join_loop_finished _ w Hf). intros _.
    split; [exact Hf | now exists []].
  - destruct (mutex_free_dec (woken o w)) as [Hm|Hm].
    + rewrite (join_loop_sleep o rest w Hf Hm). cbn [outcome final events].
      intros Hret. destruct (IH _ Hret) as [Hs [evs Hev]].
      split; [exact Hs|].
      exists (EvReadStatus (_status (this w)) :: EvWait :: evs).
      now rewrite Hev.
    + rewrite (join_loop_stuck o rest w Hf Hm). discriminate.
Qed.

(** Every read of the state inside the loop is made with the mutex
    held, and the loop writes nothing. *)
Lemma join_loop_guarded others : forall w,
  guarded true (events (join_loop others c w)) = true.
Proof.
  induction others as [|o rest IH]; intros w.
  - destruct (Status_finished_dec (_status (this w))) as [Hf|Hf].
    + now rewrite (join_loop_finished [] w Hf).
    + now rewrite (join_loop_never w Hf).
  - destruct (Status_finished_dec (_status (this w))) as [Hf|Hf].
    + now rewrite (join_loop_finished _ w Hf).
    + destruct (mutex_free_dec (woken o w)) as [Hm|Hm].
      * rewrite (join_loop_sleep o rest w Hf Hm). cbn. apply IH.
      * now rewrite (join_loop_stuck o rest w Hf Hm).
Qed.

Lemma join_loop_forward others : forall w,
  forward_only (events (join_loop others c w)) = true.
Proof.
  induction others as [|o rest IH]; intros w.
  - destruct (Status_finished_dec (_status (this w))) as [Hf|Hf].
    + now rewrite (join_loop_finished [] w Hf).
    + now rewrite (join_loop_never w Hf).
  - destruct (Status_finished_dec (_status (this w))) as [Hf|Hf].
    + now rewrite (join_loop_finished _ w Hf).
    + destruct (mutex_free_dec (woken o w)) as [Hm|Hm].
      * rewrite (join_loop_sleep o rest w Hf Hm). cbn. apply IH.
      * now rewrite (join_loop_stuck o rest w Hf Hm).
Qed.

(** Wake-ups that change nothing send the caller back to sleep; the
    wake-up that finds the state Finished lets it out of the loop. *)
Lemma join_loop_spurious n : forall w,
  _mutex (this w) = Some (me c) ->
  _status (this w) <> S_finished ->
  let r := join_loop (repeat (fun x => x) n ++ [on_this (with_status S_finished)])
             c w in
  outcome r = Returned tt /\ waits (events r) = S n /\
  final r = on_this (with_status S_finished) w.
Proof.
  induction n as [|n IH]; intros w Hm Hs.
  - cbn [repeat app].
    rewrite (join_loop_sleep _ [] w Hs) by reflexivity.
    cbn [outcome events final waits].
    rewrite join_loop_finished by reflexivity.
    cbn [outcome events final waits]. repeat split.
    destruct w as [[mu p th tid j st] rc del slots flag].
    cbn in Hm. subst mu. reflexivity.
  - cbn [repeat app].
    rewrite (join_loop_sleep _ _ w Hs) by reflexivity.
    cbn [outcome events final waits].
    assert (Hw : on_this (with_mutex (Some (me c))) (woken (fun x => x) w) = w).
    { destruct w as [[mu p th tid j st] rc del slots flag].
      cbn in Hm. subst mu. reflexivity. }
    rewrite Hw. destruct (IH w Hm Hs) as (Ho & Hw' & Hf).
    rewrite Ho, Hw', Hf. repeat split.
Qed.
End JoinLoop.

(** ** [join] around its loop *)

(** [join] when its precondition holds: the loop runs with the mutex
    held, and the mutex is given back when the loop is left. *)
Lemma join_entered_run (c : Ctx) (w : World) (others : list (World -> World)) :
  _mutex (this w) = None ->
  _joinable (this w) = true ->
  _status (this w) <> S_new ->
  let r := join_loop others c (on_this (with_mutex (Some (me c))) w) in
  join others c w =
    match outcome r with
    | Returned _ =>
        mkRun (EvLock :: EvReadStatus (_status (this w)) :: events r ++ [EvUnlock])
              (on_this (with_mutex None) (final r)) (Returned tt)
    | Aborted =>
        mkRun (EvLock :: EvReadStatus (_status (this w)) :: events r)
              (final r) Aborted
    | Blocked =>
        mkRun (EvLock :: EvReadStatus (_status (this w)) :: events r)
              (final r) Blocked
    end.
Proof.
  destruct w as [[mu p th tid j st] rc del slots flag].
  destruct c as [n pid mt pol os].
  cbn [this _mutex _joinable _status].
  intros -> -> Hs. cbv zeta.
  destruct st; try congruence; run;
    match goal with
    | |- context [join_loop others ?c ?x] =>
        destruct (join_loop others c x) as [ev fw [[]| |]]
    end; reflexivity.
Qed.

(** [join] with its precondition violated. *)
Lemma join_refused_run (c : Ctx) (w : World) (others : list (World -> World)) :
  _mutex (this w) = None ->
  _joinable (this w) = false \/ _status (this w) = S_new ->
  join others c w =
    let reads := if _joinable (this w) then [EvReadStatus S_new] else [] in
    match assert_policy c with
    | AssertDegrade =>
        mkRun (EvLock :: reads ++ [EvAssertFailure; EvUnlock]) w (Returned tt)
    | AssertFatal =>
        mkRun (EvLock :: reads ++ [EvAssertFailure])
              (on_this (with_mutex (Some (me c))) w) Aborted
    end.
Proof.
  destruct w as [[mu p th tid j st] rc del slots flag].
  destruct c as [n pid mt pol os].
  cbn [this _mutex _status _joinable assert_policy me].
  intros -> [->| ->]; destruct pol; try destruct j; try destruct st;
    reflexivity.
Qed.

(** ** [join] and the looks of its loop *)

Lemma waits_app (a b : list Event) : waits (a ++ b) = waits a + waits b.
Proof.
  induction a as [|e a IH]; [reflexivity|].
  destruct e; cbn; now rewrite ?IH.
Qed.

Lemma look_step (c : Ctx) o rest k w :
  _mutex (this (woken o w)) = None ->
  look c (o :: rest) (S k) w
    = look c rest k (on_this (with_mutex (Some (me c))) (woken o w)).
Proof. intros H. cbn [look]. now rewrite H. Qed.

(** The loop is left at the first look that finds Finished, with as
    many sleeps as looks before it. *)
Lemma join_loop_first_look (c : Ctx) k : forall others w v,
  look c others k w = Some v ->
  _status (this v) = S_finished ->
  (forall j vj, j < k -> look c others j w = Some vj ->
     _status (this vj) <> S_finished) ->
  outcome (join_loop others c w) = Returned tt /\
  waits (events (join_loop others c w)) = k /\
  final (join_loop others c w) = v.
Proof.
  induction k as [|k IH]; intros others w v Hl Hf Hmin.
  - cbn in Hl. injection Hl as <-.
    rewrite (join_loop_finished c others w Hf). now cbn.
  - assert (Hw : _status (this w) <> S_finished).
    { apply (Hmin 0 w); [lia | reflexivity]. }
    destruct others as [|o rest]; [discriminate Hl|].
    destruct (mutex_free_dec (woken o w)) as [Hm|Hm].
    + rewrite (look_step c o rest k w Hm) in Hl.
      rewrite (join_loop_sleep c o rest w Hw Hm). cbn [outcome events final].
      destruct (IH rest _ v Hl Hf) as (Ho & Hwt & Hv).
      { intros j vj Hj Hlj. apply (Hmin (S j) vj); [lia|].
        now rewrite (look_step c o rest j w Hm). }
      rewrite Ho, Hv. cbn [waits]. now rewrite Hwt.
    + cbn [look] in Hl. destruct (_mutex (this (woken o w)));
        [discriminate Hl | congruence].
Qed.

(** A look that finds Finished lets the loop out, at that look or at an
    earlier one. *)
Lemma join_loop_some_look (c : Ctx) k : forall others w v,
  look c others k w = Some v ->
  _status (this v) = S_finished ->
  outcome (join_loop others c w) = Returned tt.
Proof.
  induction k as [|k IH]; intros others w v Hl Hf;
    destruct (Status_finished_dec (_status (this w))) as [Hw|Hw];
    try (now rewrite (join_loop_finished c others w Hw)).
  - cbn in Hl. injection Hl as <-. contradiction.
  - destruct others as [|o rest]; [discriminate Hl|].
    destruct (mutex_free_dec (woken o w)) as [Hm|Hm].
    + rewrite (look_step c o rest k w Hm) in Hl.
      rewrite (join_loop_sleep c o rest w Hw Hm). cbn [outcome].
      exact (IH rest _ v Hl Hf).
    + cbn [look] in Hl. destruct (_mutex (this (woken o w)));
        [discriminate Hl | congruence].
Qed.

(** The loop is left only at a look that finds Finished. *)
Lemma join_loop_left_at_look (c : Ctx) others : forall w,
  outcome (join_loop others c w) = Returned tt ->
  exists k v, look c others k w = Some v /\ _status (this v) = S_finished.
Proof.
  induction others as [|o rest IH]; intros w;
    destruct (Status_finished_dec (_status (this w))) as [Hw|Hw].
  - intros _. now exists 0, w.
  - rewrite (join_loop_never c w Hw). discriminate.
  - intros _. now exists 0, w.
  - destruct (mutex_free_dec (woken o w)) as [Hm|Hm].
    + rewrite (join_loop_sleep c o rest w Hw Hm). cbn [outcome].
      intros Hret. destruct (IH _ Hret) as (k & v & Hl & Hf).
      exists (S k), v. split; [|exact Hf].
      now rewrite (look_step c o rest k w Hm).
    + rewrite (join_loop_stuck c o rest w Hw Hm). discriminate.
Qed.

(** [join], its precondition met, returns exactly when one of its looks
    at the state finds Finished, and then at the first such look. *)
Lemma join_exactly_on_finished (c : Ctx) (w : World)
    (others : list (World -> World)) :
  _mutex (this w) = None ->
  _joinable (this w) = true ->
  _status (this w) <> S_new ->
  let w1 := on_this (with_mutex (Some (me c))) w in
  let r := join others c w in
  (outcome r = Returned tt <->
     exists k v, look c others k w1 = Some v /\ _status (this v) = S_finished) /\
  (forall k v,
     look c others k w1 = Some v ->
     _status (this v) = S_finished ->
     (forall j vj, j < k -> look c others j w1 = Some vj ->
        _status (this vj) <> S_finished) ->
     outcome r = Returned tt /\ waits (events r) = k /\
     final r = on_this (with_mutex None) v).
Proof.
  intros Hm Hj Hs w1 r. subst r.
  rewrite (join_entered_run c w others Hm Hj Hs). fold w1.
  split; [split|].
  - intros Hret. apply (join_loop_left_at_look c others w1).
    destruct (outcome (join_loop others c w1)) as [[]| |];
      [reflexivity | discriminate Hret | discriminate Hret].
  - intros (k & v & Hl & Hf).
    now rewrite (join_loop_some_look c k others w1 v Hl Hf).
  - intros k v Hl Hf Hmin.
    destruct (join_loop_first_look c k others w1 v Hl Hf Hmin)
      as (Ho & Hwt & Hv).
    rewrite Ho. cbn [outcome events final]. rewrite Hv.
    repeat split.
    change (EvLock :: EvReadStatus (_status (this w))
              :: events (join_loop others c w1) ++ [EvUnlock])
      with ([EvLock; EvReadStatus (_status (this w))]
              ++ events (join_loop others c w1) ++ [EvUnlock]).
    rewrite !waits_app, Hwt. cbn. lia.
Qed.

(** C5.  [join] on a thread that was started joinable and is not New
    returns only on a read of Finished made under the mutex: at once,
    without sleeping, when the state is Finished already; otherwise it
    goes to sleep in [_cv.wait()], goes back to sleep after a wake-up
    that finds the state unchanged, and returns after the wake-up that
    finds the state Finished.  For every run of the other threads it
    returns exactly when one of its looks at the state finds Finished,
    at the first such look, having slept once for each look before it.
    [join] on a thread that is not joinable, or is still New, reports the failed assertion, never sleeps, and,
    where a failed assertion is not fatal, returns at once with the
    world as it was. *)
Theorem join_returns_on_finished (c : Ctx) (w : World)
    (others : list (World -> World)) :
  _mutex (this w) = None ->
  let r := join others c w in
  (_joinable (this w) = true -> _status (this w) <> S_new ->
     (outcome r = Returned tt ->
        _status (this (final r)) = S_finished /\
        exists evs, events r = evs ++ [EvReadStatus S_finished; EvUnlock]) /\
     (_status (this w) = S_finished ->
        outcome r = Returned tt /\ waits (events r) = 0 /\ final r = w) /\
     (_status (this w) <> S_finished ->
        exists evs,
          events r = [EvLock; EvReadStatus (_status (this w));
                      EvReadStatus (_status (this w)); EvWait] ++ evs) /\
     (_status (this w) <> S_finished ->
        forall o rest, others = o :: rest ->
          _mutex (this (woken o w)) = None ->
          _status (this (woken o w)) = S_finished ->
          outcome r = Returned tt /\ waits (events r) = 1) /\
     (_status (this w) <> S_finished ->
        forall n,
          others = repeat (fun x => x) n ++ [on_this (with_status S_finished)] ->
          outcome r = Returned tt /\ waits (events r) = S n) /\
     (outcome r = Returned tt <->
        exists k v,
          look c others k (on_this (with_mutex (Some (me c))) w) = Some v /\
          _status (this v) = S_finished) /\
     (forall k v,
        look c others k (on_this (with_mutex (Some (me c))) w) = Some v ->
        _status (this v) = S_finished ->
        (forall j vj, j < k ->
           look c others j (on_this (with_mutex (Some (me c))) w) = Some vj ->
           _status (this vj) <> S_finished) ->
        outcome r = Returned tt /\ waits (events r) = k /\
        final r = on_this (with_mutex None) v)) /\
  (_joinable (this w) = false \/ _status (this w) = S_new ->
     In EvAssertFailure (events r) /\ waits (events r) = 0 /\
     _status (this (final r)) = _status (this w) /\
     (assert_policy c = AssertDegrade ->
        outcome r = Returned tt /\ final r = w)).
Proof.
  intros Hm r. split.
  - intros Hj Hs. subst r.
    pose proof (join_exactly_on_finished c w others Hm Hj Hs) as Hex.
    cbv zeta in Hex.
    rewrite (join_entered_run c w others Hm Hj Hs) in Hex |- *.
    set (w1 := on_this (with_mutex (Some (me c))) w) in *.
    assert (Hw1 : _status (this w1) = _status (this w)) by reflexivity.
    split; [|split; [|split; [|split; [|split; [|exact Hex]]]]].
    + pose proof (join_loop_returns c others w1) as Hret.
      destruct (outcome (join_loop others c w1)) as [[]| |] eqn:E;
        try discriminate.
      intros _. destruct (Hret eq_refl) as [Hf [evs Hev]].
      cbn [final events]. split; [exact Hf|].
      exists (EvLock :: EvReadStatus (_status (this w)) :: evs).
      rewrite Hev. cbn. now rewrite <- app_assoc.
    + intros Hf. rewrite (join_loop_finished c others w1) by now rewrite Hw1.
      cbn [outcome events final]. repeat split.
      destruct w as [[mu p th tid j st] rc del slots flag].
      cbn in Hm. now subst mu.
    + intros Hf.
      destruct others as [|o rest].
      * rewrite (join_loop_never c w1) by now rewrite Hw1.
        cbn. now exists [].
      * destruct (mutex_free_dec (woken o w1)) as [Hm1|Hm1].
        -- rewrite (join_loop_sleep c o rest w1) by (now rewrite ?Hw1).
           cbn [outcome events final].
           destruct (outcome (join_loop rest c _)) as [[]| |];
             cbn [events]; eexists; cbn; reflexivity.
        -- rewrite (join_loop_stuck c o rest w1) by (now rewrite ?Hw1).
           cbn. now exists [].
    + intros Hf o rest -> Hmo Hso.
      assert (Hwk : woken o w1 = woken o w).
      { subst w1. destruct w as [[mu p th tid j st] rc del slots flag].
        reflexivity. }
      rewrite (join_loop_sleep c o rest w1) by (now rewrite ?Hw1, ?Hwk).
      cbn [outcome events final]. rewrite Hwk.
      rewrite (join_loop_finished c rest) by exact Hso.
      cbn. destruct (_status (this w)); now split.
    + intros Hf n ->.
      destruct (join_loop_spurious c n w1 eq_refl) as (Ho & Hw & _);
        [now rewrite Hw1|].
      rewrite Ho. cbn [outcome events waits]. split; [reflexivity|].
      rewrite <- Hw. clear.
      induction (events (join_loop _ c w1)) as [|e evs IH]; [reflexivity|].
      destruct e; cbn; now rewrite ?IH.
  - intros Hpre. subst r. rewrite (join_refused_run c w others Hm Hpre).
    destruct (assert_policy c); destruct (_joinable (this w)); cbn;
      repeat split; auto; try discriminate.
Qed.

Lemma join_returns_on_finished_witness :
  (outcome (join [on_this (with_status S_finished)] starter
              (on_this (with_status S_running) started_world)) = Returned tt /\
   waits (events (join [on_this (with_status S_finished)] starter
                    (on_this (with_status S_running) started_world))) = 1) /\
  (outcome (join [on_this (with_status S_running);
                  on_this (with_status S_finished)] starter started_world)
     = Returned tt /\
   waits (events (join [on_this (with_status S_running);
                        on_this (with_status S_finished)] starter
                    started_world)) = 2).
Proof.
  split.
  - pose proof (join_returns_on_finished starter
                  (on_this (with_status S_running) started_world)
                  [on_this (with_status S_finished)] eq_refl) as H.
    cbv zeta in H. destruct H as [H _].
    destruct (H eq_refl ltac:(discriminate)) as (_ & _ & _ & H4 & _).
    exact (H4 ltac:(discriminate) _ _ eq_refl eq_refl eq_refl).
  - pose proof (join_returns_on_finished starter started_world
                  [on_this (with_status S_running);
                   on_this (with_status S_finished)] eq_refl) as H.
    cbv zeta in H. destruct H as [H _].
    destruct (H eq_refl ltac:(discriminate)) as (_ & _ & _ & _ & _ & _ & H7).
    destruct (H7 2 _ eq_refl eq_refl) as (Ho & Hw & _).
    + intros [|[|j]] vj Hj Hl; try lia;
        cbn in Hl; injection Hl as <-; discriminate.
    + exact (conj Ho Hw).
Defined.

(** ** The traces of the operations *)

Lemma start_trace_ok c w priority joinable :
  forward_only (events (start priority joinable c w)) = true /\
  lock_discipline (events (start priority joinable c w)) = true.
Proof.
  destruct w as [[[m|] p [|th] [|tid] j st] rc del slots flag];
    destruct c as [n pid mt pol [h [[|d]|]]];
    try (split; reflexivity);
    destruct st, pol; try (split; reflexivity);
    destruct priority; run; break; split; reflexivity.
Qed.

Lemma guarded_unlock_last evs : forall held,
  guarded held (evs ++ [EvUnlock]) = guarded held evs.
Proof.
  induction evs as [|e evs IH]; intros held; [reflexivity|].
  destruct e; cbn; now rewrite ?IH.
Qed.

Lemma forward_only_unlock_last evs :
  forward_only (evs ++ [EvUnlock]) = forward_only evs.
Proof.
  unfold forward_only. rewrite forallb_app. cbn. now rewrite andb_true_r.
Qed.

Lemma join_trace_ok c w others :
  forward_only (events (join others c w)) = true /\
  lock_discipline (events (join others c w)) = true.
Proof.
  destruct (mutex_free_dec w) as [Hm|Hm].
  - assert (Hcase : (_joinable (this w) = true /\ _status (this w) <> S_new) \/
                    (_joinable (this w) = false \/ _status (this w) = S_new)).
    { destruct (_joinable (this w)), (_status (this w)); auto;
        left; split; auto; discriminate. }
    destruct Hcase as [[Hj Hs]|Hpre].
    + rewrite (join_entered_run c w others Hm Hj Hs).
      pose proof (join_loop_forward c others
                    (on_this (with_mutex (Some (me c))) w)) as Hfw.
      pose proof (join_loop_guarded c others
                    (on_this (with_mutex (Some (me c))) w)) as Hg.
      destruct (outcome (join_loop others c _)); cbn [events];
        unfold lock_discipline; cbn;
        rewrite ?forward_only_unlock_last, ?guarded_unlock_last; auto.
    + rewrite (join_refused_run c w others Hm Hpre).
      destruct (assert_policy c), (_joinable (this w)); now cbn.
  - destruct w as [[[m|] p th tid j st] rc del slots flag];
      [now run | now cbn in Hm].
Qed.

Lemma root_func_trace_ok c w thread_main :
  forward_only (events (root_func thread_main c w)) = true /\
  lock_discipline (events (root_func thread_main c w)) = true.
Proof.
  destruct w as [[[m|] p th tid j st] rc del slots flag];
    destruct c as [n pid mt pol os]; [split; reflexivity|].
  destruct st, pol; try (split; reflexivity); run;
    match goal with
    | |- context [thread_main ?x] =>
        destruct (thread_main x)
          as [[[m2|] p2 th2 tid2 j2 st2] rc2 del2 sl2 fl2]
    end; try (split; reflexivity);
    destruct st2; run; break; split; reflexivity.
Qed.

(** The claim C1 as it is worded: no operation writes a state that is
    not forward.  It fails on [setup_main_thread], which takes a New
    thread to Running. *)
Lemma setup_main_thread_skips_start_called :
  trace OpSetupMainThread starter (fresh_world 7)
    = [EvWriteStatus S_new S_running] /\
  ~ (forall op c w, forward_only (trace op c w) = true).
Proof.
  split; [reflexivity|].
  intros H. specialize (H OpSetupMainThread starter (fresh_world 7)).
  discriminate H.
Qed.

(** C1 (amended).  [start], [join] and [root_func] write the state only
    forward along New, StartCalled, Running, Finished, and never from
    New past StartCalled; [setup_main_thread] writes Running whatever
    the state is. *)
Theorem status_moves_forward (op : Operation) (c : Ctx) (w : World) :
  match op with
  | OpSetupMainThread =>
      trace op c w = [EvWriteStatus (_status (this w)) S_running] /\
      _status (this (after op c w)) = S_running
  | _ => forward_only (trace op c w) = true
  end.
Proof.
  destruct op as [priority joinable| |others|thread_main]; cbn [trace after].
  - apply start_trace_ok.
  - now destruct w as [[m p th tid j st] rc del slots flag].
  - apply join_trace_ok.
  - apply root_func_trace_ok.
Qed.

(** The claim C8 as it is worded: every access to the state is made
    with the mutex held.  It fails on [setup_main_thread], which writes
    the state and never takes the mutex. *)
Lemma setup_main_thread_writes_unlocked :
  lock_discipline (trace OpSetupMainThread starter (fresh_world 7)) = false /\
  ~ (forall op c w, lock_discipline (trace op c w) = true).
Proof.
  split; [reflexivity|].
  intros H. specialize (H OpSetupMainThread starter (fresh_world 7)).
  discriminate H.
Qed.

(** C8 (amended).  In [start], [join] and [root_func] every read and
    every write of the state is made between a [lock()] of the mutex
    and the [unlock()] that follows; [setup_main_thread] makes its one
    write without the mutex. *)
Theorem status_accessed_under_mutex (op : Operation) (c : Ctx) (w : World) :
  match op with
  | OpSetupMainThread =>
      trace op c w = [EvWriteStatus (_status (this w)) S_running] /\
      _mutex (this (after op c w)) = _mutex (this w)
  | _ => lock_discipline (trace op c w) = true
  end.
Proof.
  destruct op as [priority joinable| |others|thread_main]; cbn [trace after].
  - apply start_trace_ok.
  - now destruct w as [[m p th tid j st] rc del slots flag].
  - apply join_trace_ok.
  - apply root_func_trace_ok.
Qed.

(** ** The launcher *)

(** C4.  [root_func], entered in state StartCalled, first binds the
    slot of the calling native thread to the parent, then under the
    mutex moves the state to Running and signals, then calls
    [thread_main] (once, in a world where the slot is bound and the
    state is Running), then (the user's work having left the state
    Running) under the mutex moves the state to Finished and signals,
    and only then gives up the reference that [start] took. *)
Theorem root_func_order (c : Ctx) (w : World) (thread_main : World -> World) :
  _mutex (this w) = None ->
  _status (this w) = S_start_called ->
  let w1 := handed_to_user c w in
  _mutex (this (thread_main w1)) = None ->
  _status (this (thread_main w1)) = S_running ->
  let r := root_func thread_main c w in
  my_slot c w1 = Some (_parent_obj (this w)) /\
  _status (this w1) = S_running /\
  (exists closing,
     events r =
       [EvBindSlot (me c) (Some (_parent_obj (this w)));
        EvLock; EvReadStatus S_start_called;
        EvWriteStatus S_start_called S_running; EvNotify; EvUnlock;
        EvThreadMain (_parent_obj (this w));
        EvLock; EvReadStatus S_running;
        EvWriteStatus S_running S_finished; EvNotify; EvUnlock;
        EvUnrefDelete (_parent_obj (this (thread_main w1)))] ++ closing /\
     closing = if (ref_count (thread_main w1) - 1 =? 0)%Z
               then [EvCloseHandle (_thread (this (thread_main w1)))] else []) /\
  outcome r = Returned 0%N /\
  _status (this (final r)) = S_finished /\
  ref_count (final r) = (ref_count (thread_main w1) - 1)%Z /\
  (forall thread_main', thread_main' w1 = thread_main w1 ->
     root_func thread_main' c w = r).
Proof.
  destruct w as [[mu p th tid j st] rc del slots flag].
  destruct c as [n pid mt pol os].
  intros Hmu Hst w1 Hm Hs r.
  cbn [this _mutex _status] in Hmu, Hst. subst mu st.
  cbn [this _parent_obj me].
  assert (Hw1 : w1 = mkWorld (mkImpl None p th tid j S_running) rc del
                       (<[n:=p]> slots) flag) by reflexivity.
  assert (Hrun : forall tm, tm w1 = thread_main w1 ->
            root_func tm (mkCtx n pid mt pol os)
              (mkWorld (mkImpl None p th tid j S_start_called) rc del slots flag)
            = mkRun
                ([EvBindSlot n (Some p); EvLock; EvReadStatus S_start_called;
                  EvWriteStatus S_start_called S_running; EvNotify; EvUnlock;
                  EvThreadMain p; EvLock; EvReadStatus S_running;
                  EvWriteStatus S_running S_finished; EvNotify; EvUnlock;
                  EvUnrefDelete (_parent_obj (this (thread_main w1)))] ++
                 (if (ref_count (thread_main w1) - 1 =? 0)%Z
                  then [EvCloseHandle (_thread (this (thread_main w1)))]
                  else []))
                (mkWorld (with_status S_finished (this (thread_main w1)))
                   (ref_count (thread_main w1) - 1)
                   (if (ref_count (thread_main w1) - 1 =? 0)%Z
                    then true else deleted (thread_main w1))
                   (_current_thread (thread_main w1))
                   (_main_thread_known (thread_main w1)))
                (Returned 0%N)).
  { intros tm Htm. run. rewrite <- Hw1, Htm.
    destruct (thread_main w1) as [[mu2 p2 th2 tid2 j2 st2] rc2 del2 sl2 fl2].
    run in Hm. run in Hs. subst. run. break; reflexivity. }
  subst r. rewrite (Hrun thread_main eq_refl).
  cbn [events final outcome this ref_count].
  split; [|split; [|split; [|split; [|split; [|split]]]]]; try reflexivity.
  - rewrite Hw1. unfold my_slot. cbn [_current_thread me]. apply lookup_insert_eq.
  - eexists; split; reflexivity.
  - intros tm' Htm. apply Hrun, Htm.
Qed.

Lemma root_func_order_witness :
  outcome (root_func (fun w => w) worker started_world) = Returned 0%N /\
  _status (this (final (root_func (fun w => w) worker started_world)))
    = S_finished.
Proof.
  pose proof (root_func_order worker started_world (fun w => w)
                eq_refl eq_refl eq_refl eq_refl) as H.
  cbv zeta in H.
  exact (conj (proj1 (proj2 (proj2 (proj2 H))))
              (proj1 (proj2 (proj2 (proj2 (proj2 H)))))).
Defined.

(** ** The current-thread registry *)

(** C6.  [get_current_thread] from a native thread whose slot is empty
    tests and sets the flag.  Flag not yet set: the slot is bound to the
    main [Thread], which is returned, and a second call from the same
    native thread returns the same object straight from the slot,
    without touching the flag.  Flag already set: the assertion fails
    and no [Thread] is returned (the call dies, or, where a failed
    assertion is not fatal, returns [nullptr]). *)
Theorem get_current_thread_empty_slot (c : Ctx) (w : World) :
  my_slot c w = None ->
  let r := get_current_thread c w in
  (_main_thread_known w = false ->
     events r = [EvTestAndSet false; EvBindSlot (me c) (Some (main_thread c))] /\
     outcome r = Returned (Some (main_thread c)) /\
     my_slot c (final r) = Some (main_thread c) /\
     _main_thread_known (final r) = true /\
     get_current_thread c (final r)
       = mkRun [] (final r) (Returned (Some (main_thread c)))) /\
  (_main_thread_known w = true ->
     events r = [EvTestAndSet true; EvAssertFailure] /\
     outcome r = match assert_policy c with
                 | AssertFatal => Aborted
                 | AssertDegrade => Returned None
                 end /\
     (forall t, outcome r <> Returned (Some t)) /\
     final r = w).
Proof.
  destruct w as [i rc del slots flag].
  destruct c as [n pid mt pol os].
  intros Hslot r.
  unfold my_slot in Hslot. cbn [_current_thread me] in Hslot.
  assert (Hfirst : get_current_thread (mkCtx n pid mt pol os)
                     (mkWorld i rc del slots false)
                   = mkRun [EvTestAndSet false; EvBindSlot n (Some mt)]
                       (mkWorld i rc del (<[n:=mt]> slots) true)
                       (Returned (Some mt))).
  { run. rewrite Hslot. run. reflexivity. }
  assert (Hagain : get_current_thread (mkCtx n pid mt pol os)
                     (mkWorld i rc del (<[n:=mt]> slots) true)
                   = mkRun [] (mkWorld i rc del (<[n:=mt]> slots) true)
                       (Returned (Some mt))).
  { run. rewrite lookup_insert_eq. reflexivity. }
  assert (Hlate : get_current_thread (mkCtx n pid mt pol os)
                    (mkWorld i rc del slots true)
                  = mkRun [EvTestAndSet true; EvAssertFailure]
                      (mkWorld i rc del slots true)
                      match pol with
                      | AssertFatal => Aborted
                      | AssertDegrade => Returned None
                      end).
  { destruct pol; run; rewrite Hslot; run; rewrite Hslot;
      rewrite bool_decide_eq_false_2 by (intros H; now apply H);
      reflexivity. }
  subst r. cbn [_main_thread_known main_thread assert_policy me].
  split; intros ->.
  - rewrite Hfirst. cbn [events final outcome _main_thread_known].
    repeat split; [|exact Hagain].
    unfold my_slot. cbn [_current_thread me]. apply lookup_insert_eq.
  - rewrite Hlate. cbn [events final outcome].
    repeat split. intros t. destruct pol; discriminate.
Qed.

(** A fresh process: native thread 1 asks first and becomes the main
    thread; native thread 3, never bound, asks afterwards. *)
Lemma get_current_thread_empty_slot_witness :
  outcome (get_current_thread starter (fresh_world 7)) = Returned (Some 0) /\
  outcome (get_current_thread (ctx0 3 AssertDegrade os_ok)
             (final (get_current_thread starter (fresh_world 7))))
    = Returned None.
Proof.
  split.
  - exact (proj1 (proj2 (proj1
      (get_current_thread_empty_slot starter (fresh_world 7) eq_refl) eq_refl))).
  - exact (proj1 (proj2 (proj2
      (get_current_thread_empty_slot (ctx0 3 AssertDegrade os_ok)
         (final (get_current_thread starter (fresh_world 7))) eq_refl)
      eq_refl))).
Defined.

(** C7.  [bind_thread(thread)] leaves [thread] in the slot of the
    calling native thread, whatever was there, and no other slot is
    touched; it tests and sets the flag exactly when the slot was empty
    and [thread] is the main thread, so that the flag ends up set in
    that case and is otherwise what it was (a flag set earlier stays
    set). *)
Theorem bind_thread_binds (c : Ctx) (w : World) (thread : option nat) :
  let r := bind_thread thread c w in
  let first_main :=
    bool_decide (my_slot c w = None /\ thread = Some (main_thread c)) in
  outcome r = Returned tt /\
  my_slot c (final r) = thread /\
  (forall n, n <> me c -> _current_thread (final r) !! n = _current_thread w !! n) /\
  events r = (if first_main then [EvTestAndSet (_main_thread_known w)] else [])
             ++ [EvBindSlot (me c) thread] /\
  _main_thread_known (final r)
    = (if first_main then true else _main_thread_known w) /\
  (_main_thread_known w = true -> _main_thread_known (final r) = true) /\
  this (final r) = this w /\ ref_count (final r) = ref_count w.
Proof.
  destruct w as [i rc del slots flag].
  destruct c as [n pid mt pol os].
  intros r first_main.
  unfold my_slot in *. cbn [_current_thread me _main_thread_known main_thread] in *.
  set (slots' := match thread with
                 | Some x => <[n:=x]> slots
                 | None => delete n slots
                 end).
  assert (Hrun : r = mkRun
            ((if first_main then [EvTestAndSet flag] else [])
             ++ [EvBindSlot n thread])
            (mkWorld i rc del slots' (if first_main then true else flag))
            (Returned tt)).
  { subst r first_main. run.
    destruct (slots !! n) as [cur|] eqn:Hcur.
    - rewrite bool_decide_eq_false_2 by (intros [? _]; discriminate).
      reflexivity.
    - destruct (decide (thread = Some mt)) as [Heq|Hne].
      + rewrite (bool_decide_eq_true_2 (thread = Some mt)) by exact Heq.
        rewrite bool_decide_eq_true_2 by (split; [reflexivity|exact Heq]).
        reflexivity.
      + rewrite (bool_decide_eq_false_2 (thread = Some mt)) by exact Hne.
        rewrite bool_decide_eq_false_2 by (intros [_ ?]; contradiction).
        reflexivity. }
  rewrite Hrun.
  cbn [events final outcome _current_thread _main_thread_known this ref_count].
  repeat split.
  - subst slots'. destruct thread;
      [apply lookup_insert_eq | apply lookup_delete_eq].
  - intros k Hk. subst slots'. destruct thread;
      [apply lookup_insert_ne | apply lookup_delete_ne]; congruence.
  - intros ->. now destruct first_main.
Qed.

Lemma bind_thread_binds_witness :
  my_slot worker (final (bind_thread (Some 7) worker started_world)) = Some 7 /\
  _main_thread_known (final (bind_thread (Some 0) starter (fresh_world 7))) = true.
Proof.
  split.
  - exact (proj1 (proj2 (bind_thread_binds worker started_world (Some 7)))).
  - exact (proj1 (proj2 (proj2 (proj2 (proj2
      (bind_thread_binds starter (fresh_world 7) (Some 0))))))).
Defined.

(** ** The unique identifier *)

Lemma decimal_inj (a b : N) : decimal a = decimal b -> a = b.
Proof.
  unfold decimal. intros H.
  apply (f_equal NilEmpty.uint_of_string) in H.
  rewrite !NilEmpty.usu in H. injection H as H.
  apply (f_equal N.of_uint) in H.
  now rewrite !DecimalN.Unsigned.of_to in H.
Qed.

Lemma append_inj_r (s a b : string) :
  (s ++ a)%string = (s ++ b)%string -> a = b.
Proof.
  induction s as [|ch s IH]; cbn; intros H; [exact H|].
  injection H as H. now apply IH.
Qed.

(** A good [start]: the state was New, no handle, and the OS stored a
    thread identifier that is not 0. *)
Lemma start_success_run (c : Ctx) (w : World) priority joinable (id : N) :
  _mutex (this w) = None ->
  _status (this w) = S_new ->
  _thread (this w) = 0%N ->
  stored_id (os_create c) = Some id ->
  id <> 0%N ->
  outcome (start priority joinable c w) = Returned true /\
  _thread_id (this (final (start priority joinable c w))) = id /\
  _thread (this (final (start priority joinable c w)))
    = created_handle (os_create c).
Proof.
  destruct w as [[mu p th tid j st] rc del slots flag].
  destruct c as [n pid mt pol [h sid]].
  cbn [this _mutex _status _thread os_create stored_id created_handle].
  intros -> -> -> -> Hid.
  destruct id as [|idp]; [congruence|].
  destruct priority; repeat split; reflexivity.
Qed.

(** C9.  After a good [start], [get_unique_id] (asked by any native
    thread of the process) returns the decimal digits of the process
    identifier, a dot, and the decimal digits of the thread identifier
    that [CreateThread] stored; it changes nothing, so that asking again
    gives the same string; and another thread of the same process,
    started with another thread identifier, gets another string. *)
Theorem get_unique_id_after_start (c : Ctx) (w : World)
    (priority : ThreadPriority) (joinable : bool) (id : N) :
  _mutex (this w) = None ->
  _status (this w) = S_new ->
  _thread (this w) = 0%N ->
  stored_id (os_create c) = Some id ->
  id <> 0%N ->
  let w' := final (start priority joinable c w) in
  outcome (start priority joinable c w) = Returned true /\
  (forall q,
     get_unique_id q w' =
       mkRun [] w' (Returned (decimal (process_id q) ++ "." ++ decimal id)%string) /\
     get_unique_id q (final (get_unique_id q w')) = get_unique_id q w') /\
  (forall c2 w2 priority2 joinable2 id2 q,
     _mutex (this w2) = None ->
     _status (this w2) = S_new ->
     _thread (this w2) = 0%N ->
     stored_id (os_create c2) = Some id2 ->
     id2 <> 0%N ->
     id2 <> id ->
     outcome (get_unique_id q (final (start priority2 joinable2 c2 w2)))
       <> outcome (get_unique_id q w')).
Proof.
  intros Hm Hs Ht Hsid Hid w'.
  destruct (start_success_run c w priority joinable id Hm Hs Ht Hsid Hid)
    as (Hout & Htid & _).
  assert (Hq : forall q v i, _thread_id (this v) = i ->
            get_unique_id q v =
              mkRun [] v (Returned (decimal (process_id q) ++ "." ++ decimal i)%string)).
  { intros [n pid mt pol os] [[mu p th tid j st] rc del slots flag] i Hv.
    cbn in Hv. subst tid. reflexivity. }
  split; [exact Hout|]. split.
  - intros q. rewrite (Hq q w' id Htid). cbn [final]. split; [reflexivity|].
    apply Hq, Htid.
  - intros c2 w2 priority2 joinable2 id2 q Hm2 Hs2 Ht2 Hsid2 Hid2 Hne.
    destruct (start_success_run c2 w2 priority2 joinable2 id2
                Hm2 Hs2 Ht2 Hsid2 Hid2) as (_ & Htid2 & _).
    rewrite (Hq q w' id Htid).
    assert (Hq2 : get_unique_id q (final (start priority2 joinable2 c2 w2)) =
              mkRun [] (final (start priority2 joinable2 c2 w2))
                (Returned (decimal (process_id q) ++ "." ++ decimal id2)%string)).
    { apply Hq, Htid2. }
    rewrite Hq2. cbn [outcome]. intros H. injection H as H.
    apply append_inj_r in H. cbn in H. injection H as H.
    apply decimal_inj in H. contradiction.
Qed.

Lemma get_unique_id_after_start_witness :
  outcome (get_unique_id worker started_world) = Returned "4242.1234"%string.
Proof.
  pose proof (get_unique_id_after_start starter (fresh_world 7) TP_normal true
                1234%N eq_refl eq_refl eq_refl eq_refl ltac:(discriminate)) as H.
  cbv zeta in H.
  exact (f_equal outcome (proj1 (proj1 (proj2 H) worker))).
Defined.

(** ** The transform plumbing *)

Section Transform2SG_facts.
Import Tform.
Context `{Collaborators}.

Lemma transmit_keeps_object this trav input :
  fst (do_transmit_data this trav input) = this.
Proof.
  unfold do_transmit_data.
  destruct (has_data _ _); [|reflexivity].
  destruct (_ ≫= DCAST); [|reflexivity].
  now destruct (_node this).
Qed.

Lemma calls_get_node ms : forall this,
  get_node (calls ms this) = last_set_node ms (get_node this).
Proof.
  induction ms as [|m ms IH]; intros this; [reflexivity|].
  unfold calls in *. cbn [fold_left]. rewrite IH.
  destruct m as [node|trav input]; cbn [call last_set_node].
  - reflexivity.
  - now rewrite transmit_keeps_object.
Qed.

(** C10.  [do_transmit_data] calls [set_transform] on the node, with
    the transform carried by the input and the current thread of the
    traverser, exactly when the input carries a transform and a node
    has been set; otherwise it calls [set_transform] on nothing; it
    never changes the object.  [get_node] gives the node of the last
    [set_node], and [NULL] when there has been none since the
    construction. *)
Theorem do_transmit_data_sets_transform
    (this : Transform2SG) (trav : DataGraphTraverser)
    (input : DataNodeTransmit) (name : string) (ms : list Method) :
  let r := do_transmit_data this trav input in
  fst r = this /\
  (forall node transform,
     carried_transform input (_transform_input this) = Some transform ->
     get_node this = Some node ->
     snd r = [SetTransform node transform (get_current_thread trav)]) /\
  (forall node transform thread,
     In (SetTransform node transform thread) (snd r) ->
     carried_transform input (_transform_input this) = Some transform /\
     get_node this = Some node /\
     thread = get_current_thread trav) /\
  (has_data input (_transform_input this) = false \/ get_node this = None ->
     forall node transform thread,
       ~ In (SetTransform node transform thread) (snd r)) /\
  (has_data input (_transform_input this) = false -> snd r = []) /\
  get_node (calls ms (new_Transform2SG name)) = last_set_node ms None /\
  (forall node, get_node (set_node node this) = node) /\
  get_node (new_Transform2SG name) = None.
Proof.
  intros r. subst r.
  unfold do_transmit_data, carried_transform, get_node.
  split; [|split; [|split; [|split; [|split; [|split; [|split]]]]]].
  - apply transmit_keeps_object.
  - intros node transform Hc Hn.
    destruct (has_data _ _); [|discriminate]. rewrite Hc, Hn. reflexivity.
  - intros node transform thread Hin.
    destruct (has_data _ _); [|contradiction].
    destruct (_ ≫= DCAST) as [t|]; [|cbn in Hin; intuition discriminate].
    destruct (_node this) as [n|]; [|contradiction].
    destruct Hin as [Heq|[]]. injection Heq as -> -> ->. auto.
  - intros Hcase node transform thread Hin.
    destruct (has_data _ _); [|contradiction].
    destruct Hcase as [?|Hn]; [discriminate|].
    destruct (_ ≫= DCAST) as [t|]; [|cbn in Hin; intuition discriminate].
    rewrite Hn in Hin. contradiction.
  - intros ->. reflexivity.
  - apply (calls_get_node ms (new_Transform2SG name)).
  - reflexivity.
  - reflexivity.
Qed.
End Transform2SG_facts.

#[local] Existing Instance Tform.sample_collaborators.

Lemma do_transmit_data_sets_transform_witness :
  snd (Tform.do_transmit_data
         (Tform.set_node (Some 5) (Tform.new_Transform2SG "t2sg"))
         3 [Some (Some 42)])
    = [Tform.SetTransform 5 42 3] /\
  snd (Tform.do_transmit_data (Tform.new_Transform2SG "t2sg")
         3 [Some (Some 42)])
    = [].
Proof.
  split.
  - exact (proj1 (proj2 (do_transmit_data_sets_transform
      (Tform.set_node (Some 5) (Tform.new_Transform2SG "t2sg"))
      3 [Some (Some 42)] "t2sg" [])) 5 42 eq_refl eq_refl).
  - reflexivity.
Defined.

(** * Further properties of the thread implementation *)

(** ** [start] *)

(** A good [start], whole. *)
Lemma start_good_run (c : Ctx) (w : World)
    (priority : ThreadPriority) (joinable : bool) :
  _mutex (this w) = None ->
  _status (this w) = S_new ->
  _thread (this w) = 0%N ->
  thread_id_after (os_create c) (_thread_id (this w)) <> 0%N ->
  start priority joinable c w =
    mkRun [EvLock; EvReadStatus S_new; EvWriteStatus S_new S_start_called;
           EvRef (_parent_obj (this w)); EvCreateThread;
           EvSetThreadPriority (created_handle (os_create c))
             (win32_priority priority);
           EvUnlock]
      (mkWorld
         (mkImpl None (_parent_obj (this w)) (created_handle (os_create c))
            (thread_id_after (os_create c) (_thread_id (this w)))
            joinable S_start_called)
         (ref_count w + 1) (deleted w) (_current_thread w)
         (_main_thread_known w))
      (Returned true).
Proof.
  destruct w as [[mu p th [|tid] j st] rc del slots flag];
    destruct c as [n pid mt pol [h [[|d]|]]];
    cbn [this _mutex _status _thread _thread_id os_create thread_id_after
         stored_id created_handle _parent_obj ref_count deleted
         _current_thread _main_thread_known];
    intros -> -> -> Hid; try congruence;
    destruct priority; reflexivity.
Qed.

(** X1.  A [start] in state New, with no handle, for which the OS left
    a thread identifier other than 0, returns true with the mutex free:
    the joinable flag and the handle are recorded, the state is
    StartCalled, the parent is held once more and nothing is destroyed,
    the slots and the flag of the registry are untouched.  The whole
    call is: lock, read of the state, write of StartCalled, reference
    on the parent, [CreateThread], one [SetThreadPriority] on the new
    handle at the level that goes with the priority asked for, unlock;
    nothing else. *)
Theorem start_success (c : Ctx) (w : World)
    (priority : ThreadPriority) (joinable : bool) :
  _mutex (this w) = None ->
  _status (this w) = S_new ->
  _thread (this w) = 0%N ->
  thread_id_after (os_create c) (_thread_id (this w)) <> 0%N ->
  let r := start priority joinable c w in
  outcome r = Returned true /\
  _mutex (this (final r)) = None /\
  _status (this (final r)) = S_start_called /\
  _joinable (this (final r)) = joinable /\
  _thread (this (final r)) = created_handle (os_create c) /\
  ref_count (final r) = (ref_count w + 1)%Z /\
  deleted (final r) = deleted w /\
  _current_thread (final r) = _current_thread w /\
  _main_thread_known (final r) = _main_thread_known w /\
  _thread_id (this (final r))
    = thread_id_after (os_create c) (_thread_id (this w)) /\
  _parent_obj (this (final r)) = _parent_obj (this w) /\
  events r =
    [EvLock; EvReadStatus S_new; EvWriteStatus S_new S_start_called;
     EvRef (_parent_obj (this w)); EvCreateThread;
     EvSetThreadPriority (created_handle (os_create c))
       (match priority with
        | TP_low => THREAD_PRIORITY_BELOW_NORMAL
        | TP_normal => THREAD_PRIORITY_NORMAL
        | TP_high => THREAD_PRIORITY_ABOVE_NORMAL
        | TP_urgent => THREAD_PRIORITY_HIGHEST
        end);
     EvUnlock].
Proof.
  intros Hm Hs Ht Hid r. subst r.
  rewrite (start_good_run c w priority joinable Hm Hs Ht Hid).
  cbn [outcome final events this _mutex _status _joinable _thread ref_count
       deleted _current_thread _main_thread_known _thread_id _parent_obj].
  repeat split.
Qed.

Lemma start_success_witness :
  _status (this (final (start TP_urgent false starter (fresh_world 7))))
    = S_start_called /\
  ref_count (final (start TP_urgent false starter (fresh_world 7))) = 2%Z.
Proof.
  pose proof (start_success starter (fresh_world 7) TP_urgent false
                eq_refl eq_refl eq_refl ltac:(discriminate)) as H.
  cbv zeta in H.
  exact (conj (proj1 (proj2 (proj2 H)))
              (proj1 (proj2 (proj2 (proj2 (proj2 (proj2 H))))))).
Defined.

(** X2.  [start] returns true in one case only: the mutex could be
    taken, the state was New, there was no handle, and the thread
    identifier was not 0 after [CreateThread].  The OS is asked for a
    thread exactly when the first three hold. *)
Theorem start_true_iff (c : Ctx) (w : World)
    (priority : ThreadPriority) (joinable : bool) :
  (outcome (start priority joinable c w) = Returned true <->
     _mutex (this w) = None /\ _status (this w) = S_new /\
     _thread (this w) = 0%N /\
     thread_id_after (os_create c) (_thread_id (this w)) <> 0%N) /\
  (In EvCreateThread (events (start priority joinable c w)) <->
     _mutex (this w) = None /\ _status (this w) = S_new /\
     _thread (this w) = 0%N).
Proof.
  destruct w as [[[m|] p [|th] [|tid] j st] rc del slots flag];
    destruct c as [n pid mt pol [h [[|d]|]]];
    destruct st, pol, priority;
    cbn [this _mutex _status _thread _thread_id os_create thread_id_after
         stored_id];
    run; break; cbn [In];
    (split; split;
       [ intros H; try discriminate H; repeat split; congruence
       | intros (H1 & H2 & H3 & H4); congruence
       | intros H; repeat split;
           try congruence;
           repeat (destruct H as [H|H]; try discriminate H); contradiction
       | intros (H1 & H2 & H3); try congruence; auto 10 ]).
Qed.

(** A [start] that got past its precondition leaves the state
    StartCalled and the mutex free, whatever the OS answered. *)
Lemma start_passed_world (c : Ctx) (w : World)
    (priority : ThreadPriority) (joinable : bool) :
  _mutex (this w) = None ->
  _status (this w) = S_new ->
  _thread (this w) = 0%N ->
  _status (this (final (start priority joinable c w))) = S_start_called /\
  _mutex (this (final (start priority joinable c w))) = None.
Proof.
  destruct w as [[mu p th [|tid] j st] rc del slots flag];
    destruct c as [n pid mt pol [h [[|d]|]]];
    cbn [this _mutex _status _thread]; intros -> -> ->;
    destruct priority; run; break; split; reflexivity.
Qed.

(** A [start] that finds its precondition violated. *)
Lemma start_refused_run (c : Ctx) (w : World)
    (priority : ThreadPriority) (joinable : bool) :
  _mutex (this w) = None ->
  _status (this w) <> S_new \/ _thread (this w) <> 0%N ->
  start priority joinable c w =
    match assert_policy c with
    | AssertDegrade =>
        mkRun [EvLock; EvReadStatus (_status (this w)); EvAssertFailure;
               EvUnlock] w (Returned false)
    | AssertFatal =>
        mkRun [EvLock; EvReadStatus (_status (this w)); EvAssertFailure]
          (on_this (with_mutex (Some (me c))) w) Aborted
    end.
Proof.
  destruct w as [[mu p [|th] tid j st] rc del slots flag];
    destruct c as [n pid mt pol os];
    cbn [this _mutex _status _thread]; intros -> [H|H];
    destruct st, pol; try congruence; reflexivity.
Qed.

(** X3.  [start] works once.  After a [start] that got past its
    precondition, whether the thread was created or not, the state is
    StartCalled and the mutex is free, and every later [start] fails the
    assertion: it asks the OS for nothing, takes no reference, leaves
    the object as it is, and returns false where a failed assertion is
    not fatal.  A [start] whose [CreateThread] failed cannot be tried
    again. *)
Theorem start_once (c c' : Ctx) (w : World)
    (priority priority' : ThreadPriority) (joinable joinable' : bool) :
  _mutex (this w) = None ->
  _status (this w) = S_new ->
  _thread (this w) = 0%N ->
  let w' := final (start priority joinable c w) in
  let r := start priority' joinable' c' w' in
  _status (this w') = S_start_called /\
  _mutex (this w') = None /\
  events r = [EvLock; EvReadStatus S_start_called; EvAssertFailure] ++
             match assert_policy c' with
             | AssertDegrade => [EvUnlock]
             | AssertFatal => []
             end /\
  this (final r) = with_mutex (_mutex (this (final r))) (this w') /\
  ref_count (final r) = ref_count w' /\
  (assert_policy c' = AssertDegrade ->
     outcome r = Returned false /\ final r = w').
Proof.
  intros Hm Hs Ht w' r.
  pose proof (start_passed_world c w priority joinable Hm Hs Ht) as (Hs' & Hm').
  fold w' in Hs', Hm'.
  subst r. rewrite (start_refused_run c' w' priority' joinable' Hm')
    by (left; rewrite Hs'; discriminate).
  rewrite Hs'. clearbody w'.
  destruct w' as [[mu p th tid j st] rc del slots flag].
  cbn in Hm'. subst mu.
  destruct (assert_policy c'); cbn [events final outcome app];
    repeat split; discriminate || reflexivity.
Qed.

Lemma start_once_witness :
  outcome (start TP_low true starter
             (final (start TP_normal true (ctx0 1 AssertDegrade os_fail)
                      (fresh_world 7))))
    = Returned false.
Proof.
  pose proof (start_once (ctx0 1 AssertDegrade os_fail) starter (fresh_world 7)
                TP_normal TP_low true true eq_refl eq_refl eq_refl) as H.
  cbv zeta in H.
  exact (proj1 (proj2 (proj2 (proj2 (proj2 (proj2 H)))) eq_refl)).
Defined.

(** ** [root_func] *)

(** The three ways through [root_func] for a caller that gets the
    mutex. *)
Lemma root_func_refused_run (c : Ctx) (w : World) (thread_main : World -> World) :
  _mutex (this w) = None ->
  _status (this w) <> S_start_called ->
  let bound :=
    with_slots (<[me c := _parent_obj (this w)]> (_current_thread w)) w in
  root_func thread_main c w =
    match assert_policy c with
    | AssertDegrade =>
        mkRun [EvBindSlot (me c) (Some (_parent_obj (this w))); EvLock;
               EvReadStatus (_status (this w)); EvAssertFailure; EvUnlock]
          bound (Returned 1%N)
    | AssertFatal =>
        mkRun [EvBindSlot (me c) (Some (_parent_obj (this w))); EvLock;
               EvReadStatus (_status (this w)); EvAssertFailure]
          (on_this (with_mutex (Some (me c))) bound) Aborted
    end.
Proof.
  destruct w as [[mu p th tid j st] rc del slots flag].
  destruct c as [n pid mt pol os].
  cbn [this _mutex _status]. intros -> Hs. cbv zeta.
  destruct st, pol; try congruence; reflexivity.
Qed.

Lemma root_func_complete_run (c : Ctx) (w : World) (thread_main : World -> World) :
  _mutex (this w) = None ->
  _status (this w) = S_start_called ->
  let u := thread_main (handed_to_user c w) in
  _mutex (this u) = None ->
  _status (this u) = S_running ->
  root_func thread_main c w =
    mkRun
      ([EvBindSlot (me c) (Some (_parent_obj (this w))); EvLock;
        EvReadStatus S_start_called;
        EvWriteStatus S_start_called S_running; EvNotify; EvUnlock;
        EvThreadMain (_parent_obj (this w)); EvLock; EvReadStatus S_running;
        EvWriteStatus S_running S_finished; EvNotify; EvUnlock;
        EvUnrefDelete (_parent_obj (this u))] ++
       (if (ref_count u - 1 =? 0)%Z
        then [EvCloseHandle (_thread (this u))] else []))
      (mkWorld (with_status S_finished (this u)) (ref_count u - 1)
         (if (ref_count u - 1 =? 0)%Z then true else deleted u)
         (_current_thread u) (_main_thread_known u))
      (Returned 0%N).
Proof.
  destruct w as [[mu p th tid j st] rc del slots flag].
  destruct c as [n pid mt pol os].
  intros Hmu Hst u Hm Hs.
  cbn [this _mutex _status] in Hmu, Hst. subst mu st.
  assert (Hu : u = thread_main
                 (mkWorld (mkImpl None p th tid j S_running) rc del
                    (<[n:=p]> slots) flag)) by reflexivity.
  run. rewrite <- Hu.
  destruct u as [[mu2 p2 th2 tid2 j2 st2] rc2 del2 sl2 fl2].
  run in Hm. run in Hs. subst. run. break; reflexivity.
Qed.

Lemma root_func_spoiled_run (c : Ctx) (w : World) (thread_main : World -> World) :
  _mutex (this w) = None ->
  _status (this w) = S_start_called ->
  let u := thread_main (handed_to_user c w) in
  _mutex (this u) = None ->
  _status (this u) <> S_running ->
  root_func thread_main c w =
    let before :=
      [EvBindSlot (me c) (Some (_parent_obj (this w))); EvLock;
       EvReadStatus S_start_called;
       EvWriteStatus S_start_called S_running; EvNotify; EvUnlock;
       EvThreadMain (_parent_obj (this w)); EvLock;
       EvReadStatus (_status (this u)); EvAssertFailure] in
    match assert_policy c with
    | AssertDegrade => mkRun (before ++ [EvUnlock]) u (Returned 1%N)
    | AssertFatal =>
        mkRun before (on_this (with_mutex (Some (me c))) u) Aborted
    end.
Proof.
  destruct w as [[mu p th tid j st] rc del slots flag].
  destruct c as [n pid mt pol os].
  intros Hmu Hst u Hm Hs.
  cbn [this _mutex _status] in Hmu, Hst. subst mu st.
  assert (Hu : u = thread_main
                 (mkWorld (mkImpl None p th tid j S_running) rc del
                    (<[n:=p]> slots) flag)) by reflexivity.
  destruct pol; run; rewrite <- Hu;
    destruct u as [[mu2 p2 th2 tid2 j2 st2] rc2 del2 sl2 fl2];
    run in Hm; run in Hs; subst; destruct st2; try congruence; reflexivity.
Qed.

(** X4.  [root_func] that does not find the state StartCalled: the slot
    of the calling native thread is bound to the parent all the same,
    the assertion fails, the user's [thread_main] is not called (the run
    is the same whatever it is), the state is not written and the
    reference on the parent is not given up; where a failed assertion is
    not fatal, [root_func] returns 1 with the mutex free. *)
Theorem root_func_unexpected_state (c : Ctx) (w : World)
    (thread_main : World -> World) :
  _mutex (this w) = None ->
  _status (this w) <> S_start_called ->
  let r := root_func thread_main c w in
  my_slot c (final r) = Some (_parent_obj (this w)) /\
  events r = [EvBindSlot (me c) (Some (_parent_obj (this w))); EvLock;
              EvReadStatus (_status (this w)); EvAssertFailure] ++
             match assert_policy c with
             | AssertDegrade => [EvUnlock]
             | AssertFatal => []
             end /\
  _status (this (final r)) = _status (this w) /\
  ref_count (final r) = ref_count w /\
  deleted (final r) = deleted w /\
  (forall thread_main', root_func thread_main' c w = r) /\
  (assert_policy c = AssertDegrade ->
     outcome r = Returned 1%N /\ _mutex (this (final r)) = None).
Proof.
  intros Hm Hs r. subst r.
  rewrite (root_func_refused_run c w thread_main Hm Hs).
  split; [|split; [|split; [|split; [|split; [|split]]]]].
  - destruct (assert_policy c); unfold my_slot;
      cbn [final _current_thread with_slots on_this]; apply lookup_insert_eq.
  - now destruct (assert_policy c).
  - now destruct (assert_policy c).
  - now destruct (assert_policy c).
  - now destruct (assert_policy c).
  - intros tm'. apply (root_func_refused_run c w tm' Hm Hs).
  - intros ->. cbn [outcome final]. split; [reflexivity|].
    destruct w as [[mu p th tid j st] rc del slots flag]. exact Hm.
Qed.

Lemma root_func_unexpected_state_witness :
  outcome (root_func (on_this (with_status S_finished)) worker (fresh_world 7))
    = Returned 1%N /\
  _status (this (final (root_func (on_this (with_status S_finished)) worker
                          (fresh_world 7)))) = S_new.
Proof.
  pose proof (root_func_unexpected_state worker (fresh_world 7)
                (on_this (with_status S_finished)) eq_refl
                ltac:(discriminate)) as H.
  cbv zeta in H.
  exact (conj (proj1 (proj2 (proj2 (proj2 (proj2 (proj2 (proj2 H))))) eq_refl))
              (proj1 (proj2 (proj2 H)))).
Defined.

(** X5.  [root_func] whose user work comes back with the state no
    longer Running: the second assertion fails, the state is left as
    the user work left it (it is not set to Finished), nobody is
    signalled a second time, and the reference that [start] took is not
    given up; where a failed assertion is not fatal, [root_func] returns
    1. *)
Theorem root_func_state_not_running (c : Ctx) (w : World)
    (thread_main : World -> World) :
  _mutex (this w) = None ->
  _status (this w) = S_start_called ->
  let u := thread_main (handed_to_user c w) in
  _mutex (this u) = None ->
  _status (this u) <> S_running ->
  let r := root_func thread_main c w in
  _status (this (final r)) = _status (this u) /\
  ref_count (final r) = ref_count u /\
  deleted (final r) = deleted u /\
  (forall p, ~ In (EvUnrefDelete p) (events r)) /\
  (forall old, ~ In (EvWriteStatus old S_finished) (events r)) /\
  waits (events r) = 0 /\
  In EvAssertFailure (events r) /\
  (assert_policy c = AssertDegrade -> outcome r = Returned 1%N).
Proof.
  intros Hm Hs u Hmu Hsu r. subst r.
  rewrite (root_func_spoiled_run c w thread_main Hm Hs Hmu Hsu). fold u.
  destruct (assert_policy c); cbn [events final outcome app];
    (repeat split; try reflexivity; try discriminate;
     [ intros p Hin | intros old Hin | ];
     cbn in *; intuition discriminate).
Qed.

Lemma root_func_state_not_running_witness :
  outcome (root_func (on_this (with_status S_new)) worker started_world)
    = Returned 1%N /\
  ref_count (final (root_func (on_this (with_status S_new)) worker
                      started_world)) = 2%Z.
Proof.
  pose proof (root_func_state_not_running worker started_world
                (on_this (with_status S_new)) eq_refl eq_refl eq_refl
                ltac:(discriminate)) as H.
  cbv zeta in H.
  exact (conj (proj2 (proj2 (proj2 (proj2 (proj2 (proj2 (proj2 H)))))) eq_refl)
              (proj1 (proj2 H))).
Defined.

(** ** The life of a thread *)

(** [root_func] run on what a good [start] left, with user work that
    leaves the lifecycle object and the reference count alone. *)
Lemma launch_after_start_run (c c2 : Ctx) (w : World)
    (priority : ThreadPriority) (joinable : bool)
    (thread_main : World -> World) :
  _mutex (this w) = None ->
  _status (this w) = S_new ->
  _thread (this w) = 0%N ->
  thread_id_after (os_create c) (_thread_id (this w)) <> 0%N ->
  (forall x, this (thread_main x) = this x /\
             ref_count (thread_main x) = ref_count x /\
             deleted (thread_main x) = deleted x) ->
  let w1 := final (start priority joinable c w) in
  let u := thread_main (handed_to_user c2 w1) in
  root_func thread_main c2 w1 =
    mkRun
      ([EvBindSlot (me c2) (Some (_parent_obj (this w))); EvLock;
        EvReadStatus S_start_called;
        EvWriteStatus S_start_called S_running; EvNotify; EvUnlock;
        EvThreadMain (_parent_obj (this w)); EvLock; EvReadStatus S_running;
        EvWriteStatus S_running S_finished; EvNotify; EvUnlock;
        EvUnrefDelete (_parent_obj (this w))] ++
       (if (ref_count w =? 0)%Z
        then [EvCloseHandle (created_handle (os_create c))] else []))
      (mkWorld
         (mkImpl None (_parent_obj (this w)) (created_handle (os_create c))
            (thread_id_after (os_create c) (_thread_id (this w)))
            joinable S_finished)
         (ref_count w)
         (if (ref_count w =? 0)%Z then true else deleted w)
         (_current_thread u) (_main_thread_known u))
      (Returned 0%N).
Proof.
  intros Hm Hs Ht Hid Hkeep w1 u.
  assert (Hw1 : w1 = mkWorld
            (mkImpl None (_parent_obj (this w)) (created_handle (os_create c))
               (thread_id_after (os_create c) (_thread_id (this w)))
               joinable S_start_called)
            (ref_count w + 1) (deleted w) (_current_thread w)
            (_main_thread_known w)).
  { subst w1. now rewrite (start_good_run c w priority joinable Hm Hs Ht Hid). }
  destruct (Hkeep (handed_to_user c2 w1)) as (Hthis & Hrc & Hdel).
  fold u in Hthis, Hrc, Hdel.
  assert (Hu1 : this u = mkImpl None (_parent_obj (this w))
                  (created_handle (os_create c))
                  (thread_id_after (os_create c) (_thread_id (this w)))
                  joinable S_running).
  { rewrite Hthis, Hw1. reflexivity. }
  assert (Hu2 : ref_count u = (ref_count w + 1)%Z).
  { rewrite Hrc, Hw1. reflexivity. }
  assert (Hu3 : deleted u = deleted w).
  { rewrite Hdel, Hw1. reflexivity. }
  rewrite (root_func_complete_run c2 w1 thread_main);
    [ | now rewrite Hw1 | now rewrite Hw1
      | fold u; now rewrite Hu1 | fold u; now rewrite Hu1 ].
  fold u. rewrite Hu1, Hu2, Hu3, Zround. rewrite Hw1. reflexivity.
Qed.

(** X6.  The reference count goes round.  A good [start] followed by
    [root_func] on the new native thread, with user work that leaves
    the lifecycle object and the reference count alone, ends with
    [root_func] returning 0, the state Finished, the handle still
    recorded, and the reference count of the parent what it was before
    [start]; the object is destroyed, and its handle closed, exactly
    when nobody else held the parent. *)
Theorem start_then_root_func (c c2 : Ctx) (w : World)
    (priority : ThreadPriority) (joinable : bool)
    (thread_main : World -> World) :
  _mutex (this w) = None ->
  _status (this w) = S_new ->
  _thread (this w) = 0%N ->
  thread_id_after (os_create c) (_thread_id (this w)) <> 0%N ->
  (forall x, this (thread_main x) = this x /\
             ref_count (thread_main x) = ref_count x /\
             deleted (thread_main x) = deleted x) ->
  let r := root_func thread_main c2 (final (start priority joinable c w)) in
  outcome r = Returned 0%N /\
  _status (this (final r)) = S_finished /\
  _mutex (this (final r)) = None /\
  _thread (this (final r)) = created_handle (os_create c) /\
  _joinable (this (final r)) = joinable /\
  ref_count (final r) = ref_count w /\
  deleted (final r) = (if (ref_count w =? 0)%Z then true else deleted w) /\
  (In (EvCloseHandle (created_handle (os_create c))) (events r)
     <-> ref_count w = 0%Z).
Proof.
  intros Hm Hs Ht Hid Hkeep r. subst r.
  rewrite (launch_after_start_run c c2 w priority joinable thread_main
             Hm Hs Ht Hid Hkeep).
  cbn [outcome final events this _status _mutex _thread _joinable ref_count
       deleted].
  repeat split.
  - intros Hin. apply in_app_or in Hin. destruct Hin as [Hin|Hin].
    + cbn in Hin. repeat (destruct Hin as [Hin|Hin]; try discriminate Hin).
      contradiction.
    + destruct (ref_count w =? 0)%Z eqn:E; [now apply Z.eqb_eq|contradiction].
  - intros ->. apply in_or_app. right. now left.
Qed.

Lemma start_then_root_func_witness :
  ref_count (final (root_func (fun x => x) worker
                      (final (start TP_normal true starter (fresh_world 7)))))
    = 1%Z /\
  deleted (final (root_func (fun x => x) worker
                    (final (start TP_normal true starter (fresh_world 7)))))
    = false.
Proof.
  pose proof (start_then_root_func starter worker (fresh_world 7) TP_normal
                true (fun x => x) eq_refl eq_refl eq_refl ltac:(discriminate)
                (fun x => conj eq_refl (conj eq_refl eq_refl))) as H.
  cbv zeta in H.
  exact (conj (proj1 (proj2 (proj2 (proj2 (proj2 (proj2 H))))))
              (proj1 (proj2 (proj2 (proj2 (proj2 (proj2 (proj2 H)))))))).
Defined.

(** ** [join] and the launcher together *)

(** [join] that sleeps once and is woken to the state Finished. *)
Lemma join_one_sleep_run (c : Ctx) (w : World) (o : World -> World)
    (rest : list (World -> World)) :
  _mutex (this w) = None ->
  _joinable (this w) = true ->
  _status (this w) <> S_new ->
  _status (this w) <> S_finished ->
  _mutex (this (woken o w)) = None ->
  _status (this (woken o w)) = S_finished ->
  join (o :: rest) c w =
    mkRun [EvLock; EvReadStatus (_status (this w));
           EvReadStatus (_status (this w)); EvWait;
           EvReadStatus S_finished; EvUnlock]
      (on_this (with_mutex None) (woken o w)) (Returned tt).
Proof.
  intros Hm Hj Hn Hf Hwm Hws.
  rewrite (join_entered_run c w _ Hm Hj Hn).
  set (w1 := on_this (with_mutex (Some (me c))) w).
  assert (Hwk : woken o w1 = woken o w).
  { subst w1. destruct w as [[mu p th tid j st] rc del slots flag].
    reflexivity. }
  assert (Hs1 : _status (this w1) = _status (this w)) by reflexivity.
  rewrite (join_loop_sleep c o rest w1) by (now rewrite ?Hs1, ?Hwk).
  cbn [outcome events final]. rewrite Hwk.
  rewrite join_loop_finished by exact Hws.
  cbn [outcome events final app]. rewrite Hs1.
  reflexivity.
Qed.

(** X7.  A joiner and the new thread.  On a thread that has been
    started joinable and whose new native thread has not run yet, [join]
    goes to sleep; if the new native thread runs [root_func] from its
    first to its last statement during that sleep (with user work that
    leaves the lifecycle object alone), the joiner wakes up to the state
    Finished and returns, having slept once. *)
Theorem join_while_launcher_runs (c c2 : Ctx) (w : World)
    (thread_main : World -> World) :
  _mutex (this w) = None ->
  _status (this w) = S_start_called ->
  _joinable (this w) = true ->
  (forall x, this (thread_main x) = this x) ->
  let r := join [launcher thread_main c2] c w in
  outcome r = Returned tt /\
  waits (events r) = 1 /\
  _status (this (final r)) = S_finished /\
  _mutex (this (final r)) = None /\
  my_slot c2 (thread_main (handed_to_user c2 w)) = my_slot c2 (final r).
Proof.
  intros Hm Hs Hj Hkeep r. subst r.
  set (u := thread_main (handed_to_user c2 w)).
  assert (Hu : this u = with_status S_running (this w)).
  { unfold u. rewrite Hkeep.
    now destruct w as [[mu p th tid j st] rc del slots flag]. }
  assert (Hmu : _mutex (this u) = None).
  { rewrite Hu. now destruct w as [[mu p th tid j st] rc del slots flag]. }
  assert (Hsu : _status (this u) = S_running) by now rewrite Hu.
  assert (Hfin : woken (launcher thread_main c2) w
                 = mkWorld (with_status S_finished (this u)) (ref_count u - 1)
                     (if (ref_count u - 1 =? 0)%Z then true else deleted u)
                     (_current_thread u) (_main_thread_known u)).
  { unfold woken, launcher.
    replace (on_this (with_mutex None) w) with w
      by (destruct w as [[mu p th tid j st] rc del slots flag];
          cbn in Hm; now subst mu).
    now rewrite (root_func_complete_run c2 w thread_main Hm Hs Hmu Hsu). }
  rewrite (join_one_sleep_run c w (launcher thread_main c2) [] Hm Hj);
    [ | rewrite Hs; discriminate | rewrite Hs; discriminate
      | rewrite Hfin; cbn [this]; rewrite Hu;
        now destruct w as [[mu p th tid j st] rc del slots flag]
      | now rewrite Hfin ].
  cbn [outcome events final]. rewrite Hfin. rewrite Hs.
  split; [|split; [|split; [|split]]]; reflexivity.
Qed.

Lemma join_while_launcher_runs_witness :
  outcome (join [launcher (fun x => x) worker] starter started_world)
    = Returned tt /\
  waits (events (join [launcher (fun x => x) worker] starter started_world)) = 1.
Proof.
  pose proof (join_while_launcher_runs starter worker started_world
                (fun x => x) eq_refl eq_refl eq_refl (fun x => eq_refl)) as H.
  cbv zeta in H.
  exact (conj (proj1 H) (proj1 (proj2 H))).
Defined.

(** ** What [join] and the other operations leave alone *)

Lemma join_loop_looks_only (c : Ctx) others : forall w,
  forallb looks_only (events (join_loop others c w)) = true.
Proof.
  induction others as [|o rest IH]; intros w;
    destruct (Status_finished_dec (_status (this w))) as [Hf|Hf].
  - now rewrite (join_loop_finished c [] w Hf).
  - now rewrite (join_loop_never c w Hf).
  - now rewrite (join_loop_finished c _ w Hf).
  - destruct (mutex_free_dec (woken o w)) as [Hm|Hm].
    + rewrite (join_loop_sleep c o rest w Hf Hm). cbn. apply IH.
    + now rewrite (join_loop_stuck c o rest w Hf Hm).
Qed.

(** X8.  [join] only looks: whatever the state of the object and
    whatever the other threads do while it sleeps, a call of [join]
    itself takes and gives back the mutex, reads the state, sleeps and
    at most reports a failed assertion; it never writes the state, never
    signals, never touches the reference count of the parent and never
    asks anything of the OS. *)
Theorem join_only_looks (c : Ctx) (w : World) (others : list (World -> World)) :
  forallb looks_only (events (join others c w)) = true.
Proof.
  destruct (mutex_free_dec w) as [Hm|Hm].
  - assert (Hcase : (_joinable (this w) = true /\ _status (this w) <> S_new) \/
                    (_joinable (this w) = false \/ _status (this w) = S_new)).
    { destruct (_joinable (this w)), (_status (this w)); auto;
        left; split; auto; discriminate. }
    destruct Hcase as [[Hj Hs]|Hpre].
    + rewrite (join_entered_run c w others Hm Hj Hs).
      pose proof (join_loop_looks_only c others
                    (on_this (with_mutex (Some (me c))) w)) as Hl.
      destruct (outcome (join_loop others c _)); cbn [events forallb looks_only];
        rewrite ?forallb_app, ?Hl; reflexivity.
    + rewrite (join_refused_run c w others Hm Hpre).
      destruct (assert_policy c), (_joinable (this w)); reflexivity.
  - destruct w as [[[m|] p th tid j st] rc del slots flag];
      [reflexivity | now cbn in Hm].
Qed.

(** X9.  No operation that takes the mutex returns with it: when a
    call of [start], [join] or [root_func] comes back to its caller, the
    mutex is free, whatever the state was, whatever the OS answered and
    whatever the user work and the other threads did in between. *)
Theorem mutex_free_on_return (op : Operation) (c : Ctx) (w : World) :
  op <> OpSetupMainThread ->
  returns op c w = true ->
  _mutex (this (after op c w)) = None.
Proof.
  destruct op as [priority joinable| |others|thread_main];
    intros Hop; [|congruence| |]; cbn [returns after]; unfold returned.
  - destruct w as [[[m|] p [|th] [|tid] j st] rc del slots flag];
      destruct c as [n pid mt pol [h [[|d]|]]];
      destruct st, pol, priority; run; break;
      (reflexivity || discriminate).
  - destruct (mutex_free_dec w) as [Hm|Hm].
    + assert (Hcase : (_joinable (this w) = true /\ _status (this w) <> S_new) \/
                      (_joinable (this w) = false \/ _status (this w) = S_new)).
      { destruct (_joinable (this w)), (_status (this w)); auto;
          left; split; auto; discriminate. }
      destruct Hcase as [[Hj Hs]|Hpre].
      * rewrite (join_entered_run c w others Hm Hj Hs).
        destruct (outcome (join_loop others c _)); cbn [outcome final];
          (reflexivity || discriminate).
      * rewrite (join_refused_run c w others Hm Hpre).
        destruct (assert_policy c); cbn [outcome final];
          [discriminate | intros _; exact Hm].
    + destruct w as [[[m|] p th tid j st] rc del slots flag];
        [discriminate | now cbn in Hm].
  - destruct w as [[[m|] p th tid j st] rc del slots flag];
      destruct c as [n pid mt pol os]; [discriminate|].
    destruct st, pol; try (reflexivity || discriminate); run;
      match goal with
      | |- context [thread_main ?x] =>
          destruct (thread_main x)
            as [[[m2|] p2 th2 tid2 j2 st2] rc2 del2 sl2 fl2]
      end; try (reflexivity || discriminate);
      destruct st2; run; break; (reflexivity || discriminate).
Qed.

Lemma mutex_free_on_return_witness :
  _mutex (this (after (OpRootFunc (fun x => x)) worker started_world)) = None.
Proof.
  exact (mutex_free_on_return (OpRootFunc (fun x => x)) worker started_world
           ltac:(discriminate) eq_refl).
Defined.

(** ** More on the registry *)

(** [get_current_thread] from a native thread whose slot is bound. *)
Lemma get_current_thread_bound_run (c : Ctx) (w : World) (t : nat) :
  my_slot c w = Some t ->
  get_current_thread c w = mkRun [] w (Returned (Some t)).
Proof.
  destruct w as [i rc del slots flag]. destruct c as [n pid mt pol os].
  unfold my_slot. cbn [_current_thread me]. intros Hslot.
  run. rewrite Hslot. reflexivity.
Qed.

(** X10.  User work knows who it is.  In the world in which [root_func]
    hands over to [thread_main] (and [root_func], entered in state
    StartCalled, looks at [thread_main] through its result on that world
    only), [get_current_thread] on the new native thread returns the
    parent [Thread], straight from the slot: it neither touches the flag
    nor depends on it, nor on which [Thread] is the main one. *)
Theorem get_current_thread_in_thread_main (c : Ctx) (w : World) :
  _mutex (this w) = None ->
  _status (this w) = S_start_called ->
  (forall thread_main thread_main',
     thread_main (handed_to_user c w) = thread_main' (handed_to_user c w) ->
     root_func thread_main c w = root_func thread_main' c w) /\
  (forall thread_main, exists before after,
     events (root_func thread_main c w)
       = before ++ EvThreadMain (_parent_obj (this w)) :: after /\
     In (EvBindSlot (me c) (Some (_parent_obj (this w)))) before) /\
  get_current_thread c (handed_to_user c w)
    = mkRun [] (handed_to_user c w) (Returned (Some (_parent_obj (this w)))).
Proof.
  intros Hm Hs. split; [|split].
  - destruct w as [[mu p th tid j st] rc del slots flag].
    destruct c as [n pid mt pol os].
    cbn [this _mutex _status] in Hm, Hs. subst mu st.
    intros tm tm' Heq. run in Heq. destruct pol; run; now rewrite Heq.
  - destruct w as [[mu p th tid j st] rc del slots flag].
    destruct c as [n pid mt pol os].
    cbn [this _mutex _status] in Hm, Hs. subst mu st.
    intros thread_main.
    exists [EvBindSlot n (Some p); EvLock; EvReadStatus S_start_called;
            EvWriteStatus S_start_called S_running; EvNotify; EvUnlock].
    destruct pol; run;
      match goal with
      | |- context [thread_main ?x] =>
          destruct (thread_main x)
            as [[[m2|] p2 th2 tid2 j2 st2] rc2 del2 sl2 fl2]
      end; try destruct st2; run; break;
      eexists; (split; [reflexivity | now left]).
  - apply get_current_thread_bound_run.
    unfold my_slot, handed_to_user.
    cbn [_current_thread on_this with_slots]. apply lookup_insert_eq.
Qed.

Lemma get_current_thread_in_thread_main_witness :
  outcome (get_current_thread worker (handed_to_user worker started_world))
    = Returned (Some 7).
Proof.
  exact (f_equal outcome
           (proj2 (proj2 (get_current_thread_in_thread_main worker
                            started_world eq_refl eq_refl)))).
Defined.

(** X11.  What is bound is what is found.  After [bind_thread(thread)]
    with a [thread] that is not [nullptr], [get_current_thread] on the
    same native thread returns [thread] and changes nothing; after
    [bind_thread(nullptr)] the slot is empty again, so that the next
    [get_current_thread] falls back on the test of the flag. *)
Theorem bind_thread_then_get_current_thread (c : Ctx) (w : World) :
  (forall t,
     let w' := final (bind_thread (Some t) c w) in
     get_current_thread c w' = mkRun [] w' (Returned (Some t))) /\
  (let w' := final (bind_thread None c w) in
   my_slot c w' = None /\
   exists rest,
     events (get_current_thread c w')
       = EvTestAndSet (_main_thread_known w) :: rest).
Proof.
  destruct w as [i rc del slots flag]. destruct c as [n pid mt pol os].
  split.
  - intros t w'. apply get_current_thread_bound_run.
    subst w'. unfold my_slot. run.
    destruct (slots !! n);
      [|destruct (bool_decide (Some t = Some mt))];
      run; apply lookup_insert_eq.
  - cbv zeta.
    assert (Hb : final (bind_thread None (mkCtx n pid mt pol os)
                          (mkWorld i rc del slots flag))
                 = mkWorld i rc del (delete n slots) flag).
    { run. destruct (slots !! n);
        [|rewrite bool_decide_eq_false_2 by discriminate]; reflexivity. }
    rewrite Hb. unfold my_slot. cbn [_current_thread me].
    split; [apply lookup_delete_eq|].
    run. rewrite lookup_delete_eq. destruct flag, pol; run;
      rewrite ?lookup_delete_eq; eexists; reflexivity.
Qed.

(** X12.  The slots are per native thread.  Neither
    [get_current_thread] nor [bind_thread] made by one native thread
    changes the slot of another, or the lifecycle object, or the
    reference count; so a native thread whose slot is bound gets the
    same answer from [get_current_thread] before and after any such
    call of another native thread. *)
Theorem registry_calls_keep_other_slots (c c' : Ctx) (w : World)
    (thread : option nat) :
  me c' <> me c ->
  let w1 := final (get_current_thread c w) in
  let w2 := final (bind_thread thread c w) in
  my_slot c' w1 = my_slot c' w /\
  my_slot c' w2 = my_slot c' w /\
  this w1 = this w /\ ref_count w1 = ref_count w /\
  this w2 = this w /\ ref_count w2 = ref_count w /\
  (forall t, my_slot c' w = Some t ->
     outcome (get_current_thread c' w1) = Returned (Some t) /\
     outcome (get_current_thread c' w2) = Returned (Some t)).
Proof.
  intros Hne w1 w2.
  assert (H1 : my_slot c' w1 = my_slot c' w /\ this w1 = this w /\
               ref_count w1 = ref_count w).
  { subst w1 w2. destruct w as [i rc del slots flag].
    destruct c as [n pid mt pol os]. destruct c' as [n' pid' mt' pol' os'].
    cbn [me] in Hne. unfold my_slot. run.
    destruct (slots !! n) as [t|] eqn:E; [now run|].
    destruct flag, pol; run; rewrite ?E; run;
      rewrite ?bool_decide_eq_false_2 by (intros H; now apply H);
      repeat split; try reflexivity;
      apply lookup_insert_ne; congruence. }
  assert (H2 : my_slot c' w2 = my_slot c' w /\ this w2 = this w /\
               ref_count w2 = ref_count w).
  { subst w1 w2. destruct w as [i rc del slots flag].
    destruct c as [n pid mt pol os]. destruct c' as [n' pid' mt' pol' os'].
    cbn [me] in Hne. unfold my_slot. run.
    destruct (slots !! n) as [t|];
      [|destruct (bool_decide (thread = Some mt))];
      destruct thread; run; repeat split;
      (apply lookup_insert_ne || apply lookup_delete_ne); congruence. }
  destruct H1 as (Hs1 & Ht1 & Hr1). destruct H2 as (Hs2 & Ht2 & Hr2).
  repeat split; auto.
  - rewrite (get_current_thread_bound_run c' w1 t); [reflexivity|congruence].
  - rewrite (get_current_thread_bound_run c' w2 t); [reflexivity|congruence].
Qed.

Lemma registry_calls_keep_other_slots_witness :
  my_slot worker (final (bind_thread (Some 9) starter
                           (handed_to_user worker started_world)))
    = Some 7.
Proof.
  exact (proj1 (proj2 (registry_calls_keep_other_slots starter worker
                         (handed_to_user worker started_world) (Some 9)
                         ltac:(discriminate)))).
Defined.

(** X13.  Binding the main thread by hand closes the lazy way in.  Once
    a native thread with an empty slot has called [bind_thread] with the
    main [Thread], the flag is set; another native thread whose slot is
    empty then gets no identity from [get_current_thread]: the flag is
    found set, the assertion fails, and the call dies or returns
    [nullptr], leaving its slot empty. *)
Theorem bind_main_thread_then_unbound_query (c c' : Ctx) (w : World) :
  me c' <> me c ->
  my_slot c w = None ->
  my_slot c' w = None ->
  let w' := final (bind_thread (Some (main_thread c)) c w) in
  let r := get_current_thread c' w' in
  _main_thread_known w' = true /\
  my_slot c w' = Some (main_thread c) /\
  events r = [EvTestAndSet true; EvAssertFailure] /\
  outcome r = match assert_policy c' with
              | AssertFatal => Aborted
              | AssertDegrade => Returned None
              end /\
  my_slot c' (final r) = None.
Proof.
  destruct w as [i rc del slots flag].
  destruct c as [n pid mt pol os]. destruct c' as [n' pid' mt' pol' os'].
  intros Hne Hn Hn' w' r.
  unfold my_slot in *.
  cbn [me _current_thread main_thread assert_policy] in *.
  assert (Hw' : w' = mkWorld i rc del (<[n:=mt]> slots) true).
  { subst w'. run. rewrite Hn.
    rewrite bool_decide_eq_true_2 by reflexivity. reflexivity. }
  assert (Hl : (<[n:=mt]> slots) !! n' = None).
  { rewrite lookup_insert_ne by congruence. exact Hn'. }
  assert (Hr : r = mkRun [EvTestAndSet true; EvAssertFailure] w'
                     match pol' with
                     | AssertFatal => Aborted
                     | AssertDegrade => Returned None
                     end).
  { subst r. rewrite Hw'. destruct pol'; run; rewrite Hl; run; rewrite Hl;
      rewrite bool_decide_eq_false_2 by (intros H; now apply H);
      reflexivity. }
  rewrite Hr. cbn [events final outcome]. rewrite Hw'.
  cbn [_main_thread_known _current_thread].
  repeat split; [apply lookup_insert_eq | exact Hl].
Qed.

Lemma bind_main_thread_then_unbound_query_witness :
  outcome (get_current_thread worker
             (final (bind_thread (Some 0) starter (fresh_world 7))))
    = Returned None.
Proof.
  pose proof (bind_main_thread_then_unbound_query starter worker
                (fresh_world 7) ltac:(discriminate) eq_refl eq_refl) as H.
  cbv zeta in H.
  exact (proj1 (proj2 (proj2 (proj2 H)))).
Defined.

(** ** [setup_main_thread] and [start] *)

(** X14.  The main thread cannot be started.  After
    [setup_main_thread] the state is Running whatever it was, and
    nothing else has changed; a [start] that follows fails its
    assertion, asks the OS for no thread, and leaves the state Running;
    where a failed assertion is not fatal it returns false. *)
Theorem setup_main_thread_then_start (c c' : Ctx) (w : World)
    (priority : ThreadPriority) (joinable : bool) :
  _mutex (this w) = None ->
  let w' := final (setup_main_thread c w) in
  let r := start priority joinable c' w' in
  w' = on_this (with_status S_running) w /\
  events r = [EvLock; EvReadStatus S_running; EvAssertFailure] ++
             match assert_policy c' with
             | AssertDegrade => [EvUnlock]
             | AssertFatal => []
             end /\
  _status (this (final r)) = S_running /\
  ref_count (final r) = ref_count w /\
  (assert_policy c' = AssertDegrade ->
     outcome r = Returned false /\ final r = w').
Proof.
  intros Hm w' r.
  assert (Hw' : w' = on_this (with_status S_running) w) by reflexivity.
  subst r. rewrite (start_refused_run c' w' priority joinable);
    [ | rewrite Hw'; destruct w as [[mu p th tid j st] rc del slots flag];
        exact Hm
      | left; rewrite Hw'; discriminate ].
  rewrite Hw'.
  destruct (assert_policy c'); cbn [events final outcome app];
    repeat split; discriminate || reflexivity.
Qed.

Lemma setup_main_thread_then_start_witness :
  outcome (start TP_normal true starter
             (final (setup_main_thread starter (fresh_world 7))))
    = Returned false.
Proof.
  pose proof (setup_main_thread_then_start starter starter (fresh_world 7)
                TP_normal true eq_refl) as H.
  cbv zeta in H.
  exact (proj1 (proj2 (proj2 (proj2 (proj2 H))) eq_refl)).
Defined.

(** ** More on the unique identifier *)

Lemma decimal_no_dot (n : N) : no_dot (decimal n) = true.
Proof.
  unfold decimal. induction (N.to_uint n) as [|d IH|d IH|d IH|d IH|d IH
                                              |d IH|d IH|d IH|d IH|d IH];
    cbn; auto.
Qed.

Lemma dotted_inj (a b x y : string) :
  no_dot a = true -> no_dot b = true ->
  (a ++ "." ++ x)%string = (b ++ "." ++ y)%string ->
  a = b /\ x = y.
Proof.
  revert b. induction a as [|ch a IH]; intros [|ch' b] Ha Hb H; cbn in *.
  - injection H as H. now split.
  - injection H as Hc H. subst ch'. cbn in Hb. discriminate.
  - injection H as Hc H. subst ch. cbn in Ha. discriminate.
  - injection H as Hc H. subst ch'.
    apply andb_true_iff in Ha as [_ Ha]. apply andb_true_iff in Hb as [_ Hb].
    destruct (IH b Ha Hb H) as [-> ->]. now split.
Qed.

(** X15.  The unique identifier can be read back.  Two calls of
    [get_unique_id], on any objects and from any processes, return the
    same string exactly when the process identifiers are the same and
    the stored thread identifiers are the same: neither number contains
    the dot that separates them. *)
Theorem get_unique_id_injective (q q' : Ctx) (w w' : World) :
  outcome (get_unique_id q w) = outcome (get_unique_id q' w') <->
  process_id q = process_id q' /\
  _thread_id (this w) = _thread_id (this w').
Proof.
  assert (Hq : forall q w,
            outcome (get_unique_id q w)
            = Returned (decimal (process_id q) ++ "." ++
                        decimal (_thread_id (this w)))%string).
  { intros [n pid mt pol os] [[mu p th tid j st] rc del slots flag].
    reflexivity. }
  rewrite !Hq. split.
  - intros H. injection H as H.
    apply dotted_inj in H; try apply decimal_no_dot.
    destruct H as [H1 H2]. split; now apply decimal_inj.
  - intros [-> ->]. reflexivity.
Qed.

(** ** [join] once the thread is over *)

(** X17.  After a good [start] and a [root_func] that ran to its end
    (with user work that leaves the lifecycle object and the reference
    count alone), a [join] by any native thread does not sleep: if the
    thread was started joinable it returns at once and leaves the world
    as it is; if it was not, the assertion of [join] fails, even though
    the thread is over, and where that is not fatal [join] returns all
    the same. *)
Theorem join_after_the_thread_is_over (c c2 c3 : Ctx) (w : World)
    (priority : ThreadPriority) (joinable : bool)
    (thread_main : World -> World) (others : list (World -> World)) :
  _mutex (this w) = None ->
  _status (this w) = S_new ->
  _thread (this w) = 0%N ->
  thread_id_after (os_create c) (_thread_id (this w)) <> 0%N ->
  (forall x, this (thread_main x) = this x /\
             ref_count (thread_main x) = ref_count x /\
             deleted (thread_main x) = deleted x) ->
  let over := final (root_func thread_main c2
                       (final (start priority joinable c w))) in
  let r := join others c3 over in
  waits (events r) = 0 /\
  (joinable = true -> outcome r = Returned tt /\ final r = over /\
     events r = [EvLock; EvReadStatus S_finished; EvReadStatus S_finished;
                 EvUnlock]) /\
  (joinable = false ->
     events r = [EvLock; EvAssertFailure] ++
                match assert_policy c3 with
                | AssertDegrade => [EvUnlock]
                | AssertFatal => []
                end /\
     (assert_policy c3 = AssertDegrade ->
        outcome r = Returned tt /\ final r = over)).
Proof.
  intros Hm Hs Ht Hid Hkeep over r.
  assert (Hover : this over
                  = mkImpl None (_parent_obj (this w))
                      (created_handle (os_create c))
                      (thread_id_after (os_create c) (_thread_id (this w)))
                      joinable S_finished).
  { subst over.
    now rewrite (launch_after_start_run c c2 w priority joinable thread_main
                   Hm Hs Ht Hid Hkeep). }
  clearbody over.
  destruct over as [i rc del slots flag]. cbn [this] in Hover. subst i.
  subst r. destruct joinable.
  - rewrite join_entered_run by (cbn; congruence).
    rewrite join_loop_finished by reflexivity.
    cbn [outcome events final app waits on_this with_mutex this _mutex
         _parent_obj _thread _thread_id _joinable _status].
    repeat split; discriminate.
  - rewrite join_refused_run by (cbn; auto).
    cbn [_joinable this].
    destruct (assert_policy c3); cbn [outcome events final app waits];
      repeat split; discriminate || reflexivity.
Qed.

Lemma join_after_the_thread_is_over_witness :
  outcome (join [] starter
             (final (root_func (fun x => x) worker
                       (final (start TP_normal true starter (fresh_world 7))))))
    = Returned tt.
Proof.
  pose proof (join_after_the_thread_is_over starter worker starter
                (fresh_world 7) TP_normal true (fun x => x) []
                eq_refl eq_refl eq_refl ltac:(discriminate)
                (fun x => conj eq_refl (conj eq_refl eq_refl))) as H.
  cbv zeta in H.
  exact (proj1 (proj1 (proj2 H) eq_refl)).
Defined.

(** * Further properties of the transform plumbing *)

Section Transform2SG_scripts.
Import Tform.
Context `{Collaborators}.

Lemma transmit_effect_in this trav input node transform thread :
  In (SetTransform node transform thread)
     (snd (do_transmit_data this trav input)) <->
  carried_transform input (_transform_input this) = Some transform /\
  get_node this = Some node /\
  thread = get_current_thread trav.
Proof.
  unfold do_transmit_data, carried_transform, get_node.
  destruct (has_data _ _); [|cbn; intuition discriminate].
  destruct (_ ≫= DCAST) as [t|]; [|cbn; intuition discriminate].
  destruct (_node this) as [n|]; [|cbn; intuition discriminate].
  cbn. split.
  - intros [Heq|[]]. injection Heq as -> -> ->. auto.
  - intros (Ht & Hn & ->). injection Ht as ->. injection Hn as ->. now left.
Qed.

Lemma call_keeps_input this m :
  _transform_input (call this m) = _transform_input this.
Proof.
  destruct m as [node|trav input]; cbn [call]; [reflexivity|].
  now rewrite transmit_keeps_object.
Qed.

(** X16.  Every transform goes to the node set last.  In a run of
    [set_node] and [do_transmit_data] calls on an object,
    [set_transform] is called on a node, with a transform and a thread,
    exactly when some [do_transmit_data] of the run carried that
    transform, came from a traverser with that current thread, and was
    made when that node was the one most recently set (by [set_node]
    earlier in the run, or before the run); a transform transmitted
    while the node is [NULL] goes nowhere. *)
Theorem set_transform_goes_to_latest_node (ms : list Method) :
  forall (this : Transform2SG) node transform thread,
    In (SetTransform node transform thread) (script_effects ms this) <->
    exists before trav input after,
      ms = before ++ CallTransmitData trav input :: after /\
      last_set_node before (get_node this) = Some node /\
      carried_transform input (_transform_input this) = Some transform /\
      thread = get_current_thread trav.
Proof.
  induction ms as [|m ms IH]; intros this node transform thread.
  - cbn. split; [contradiction|].
    intros (before & trav & input & after & Hms & _).
    now destruct before.
  - cbn [script_effects]. rewrite in_app_iff, IH. split.
    + intros [Hin|(before & trav & input & after & -> & Hn & Hc & ->)].
      * destruct m as [n|trav input]; [contradiction|].
        apply transmit_effect_in in Hin as (Hc & Hn & ->).
        exists [], trav, input, ms. auto.
      * exists (m :: before), trav, input, after.
        rewrite call_keeps_input in Hc.
        repeat split; auto.
        destruct m as [n|trav' input']; cbn [last_set_node call] in *;
          [exact Hn|].
        now rewrite transmit_keeps_object in Hn.
    + intros (before & trav & input & after & Hms & Hn & Hc & ->).
      destruct before as [|m' before]; cbn in Hms; injection Hms as Hm Hms;
        subst m ms.
      * left. apply transmit_effect_in. auto.
      * right. exists before, trav, input, after.
        rewrite call_keeps_input.
        repeat split; auto.
        destruct m' as [n|trav' input']; cbn [last_set_node call] in *;
          [exact Hn|].
        now rewrite transmit_keeps_object.
Qed.
End Transform2SG_scripts.

Lemma set_transform_goes_to_latest_node_witness :
  In (Tform.SetTransform (H := Tform.sample_collaborators) 6 42 3)
     (Tform.script_effects Tform.sample_script
        (Tform.new_Transform2SG "t2sg")).
Proof.
  apply (proj2 (set_transform_goes_to_latest_node
                  (H := Tform.sample_collaborators) Tform.sample_script
                  (Tform.new_Transform2SG "t2sg") 6 42 3)).
  exists (firstn 2 Tform.sample_script), 3, [Some (Some 42)],
    (skipn 3 Tform.sample_script).
  repeat split.
Defined.
